(** * pool-api: the /pool-data endpoint of [main.go]

    A shallow embedding of [main.go]: the [DataPoint] record, the pool
    initialiser [getDatabasePool], the request handler [getDataHandler] and
    [main], together with the parts of [net/http], [encoding/json], [time]
    and [pgx] whose behaviour the handler's observable output depends on.

    Go programs are sequences of calls on stateful objects.  A Go function
    is embedded as a program over a signature of effects ([Prog]); the
    objects (the [http.ResponseWriter] of a request, the standard logger,
    the environment of the process) live in the interpreter of that
    signature.  One and the same program text is run sequentially ([run])
    and interleaved with other requests ([run_schedule]). *)

From Stdlib Require Import Ascii String ZArith Lia Sorted.
From stdpp Require Import gmap strings list fin_maps pretty.

Open Scope string_scope.
Open Scope Z_scope.

(** ** Strings *)

(** The double-quote character of JSON texts. *)
Definition dquote : string := String "034"%char EmptyString.

(** The line terminator written by [fmt.Fprintln] and [Encoder.Encode]. *)
Definition newline : string := String "010"%char EmptyString.

(** [quoted s] is [s] between double quotes. *)
Definition quoted (s : string) : string := dquote ++ s ++ dquote.

(** Expected JSON texts are written with single quotes standing for the
    double quotes of JSON. *)
Fixpoint json_text (s : string) : string :=
  match s with
  | EmptyString => EmptyString
  | String c rest =>
      String (if Ascii.eqb c "'"%char then "034"%char else c) (json_text rest)
  end.

(** [strings.Join]. *)
Fixpoint Join (elems : list string) (sep : string) : string :=
  match elems with
  | [] => EmptyString
  | [e] => e
  | e :: rest => e ++ sep ++ Join rest sep
  end.

(** The first [n] bytes of [s]. *)
Definition string_take (n : nat) (s : string) : string := String.substring 0 n s.

(** ** Go values *)

(** A Go [error] is represented by its message; [None] is [nil]. *)
Definition error := string.

(** A Go slice is [nil] or holds elements: [var s []T] is [nil_slice], and
    [append] always returns a slice that holds elements. *)
Inductive slice (A : Type) : Type :=
| nil_slice
| slice_of (elems : list A).
Arguments nil_slice {A}.
Arguments slice_of {A} elems.

Definition slice_elems {A} (s : slice A) : list A :=
  match s with
  | nil_slice => []
  | slice_of l => l
  end.

Definition append {A} (s : slice A) (x : A) : slice A :=
  slice_of (slice_elems s ++ [x]).

(** The bounds of Go's [int] on the 64-bit platforms. *)
Definition minInt : Z := - 2 ^ 63.
Definition maxInt : Z := 2 ^ 63 - 1.

(** ** [time.Time] *)

(** An instant (seconds and nanoseconds since the Unix epoch) together with
    the offset, in seconds east of UTC, of the location it is shown in. *)
Record Time := {
  unixSec : Z;
  nsec : Z;
  zoneOffset : Z
}.

(** [t.Compare(u) <= 0]: instants are compared, locations are not. *)
Definition time_le (t u : Time) : Prop :=
  unixSec t < unixSec u \/ (unixSec t = unixSec u /\ nsec t <= nsec u).

(** The proleptic Gregorian date of a day number counted from 1970-01-01,
    as [Time.Date] reports it. *)
Definition civil_of_days (days : Z) : Z * Z * Z :=
  let z := days + 719468 in
  let era := z / 146097 in
  let doe := z mod 146097 in
  let yoe := (doe - doe / 1460 + doe / 36524 - doe / 146096) / 365 in
  let doy := doe - (365 * yoe + yoe / 4 - yoe / 100) in
  let mp := (5 * doy + 2) / 153 in
  let d := doy - (153 * mp + 2) / 5 + 1 in
  let m := if mp <? 10 then mp + 3 else mp - 9 in
  let y := yoe + era * 400 + (if m <=? 2 then 1 else 0) in
  (y, m, d).

(** The inverse, used to write dates down ([time.Date] in UTC). *)
Definition days_of_civil (y m d : Z) : Z :=
  let y' := if m <=? 2 then y - 1 else y in
  let era := y' / 400 in
  let yoe := y' mod 400 in
  let mp := if m <=? 2 then m + 9 else m - 3 in
  let doy := (153 * mp + 2) / 5 + d - 1 in
  let doe := yoe * 365 + yoe / 4 - yoe / 100 + doy in
  era * 146097 + doe - 719468.

Definition Date (y m d hh mm ss ns : Z) : Time :=
  {| unixSec := days_of_civil y m d * 86400 + hh * 3600 + mm * 60 + ss;
     nsec := ns;
     zoneOffset := 0 |}.

(** [appendInt b x width]: decimal, zero-padded to [width] digits, with the
    sign in front. *)
Definition appendInt (x : Z) (width : nat) : string :=
  let digits := pretty (Z.abs x) in
  let padding := String.concat EmptyString
                   (replicate (width - String.length digits)%nat "0") in
  (if x <? 0 then "-" else EmptyString) ++ padding ++ digits.

(** Trailing zeros of a fraction are dropped. *)
Fixpoint trim_zeros_rev (rev_digits : list ascii) : list ascii :=
  match rev_digits with
  | c :: rest => if Ascii.eqb c "0"%char then trim_zeros_rev rest else rev_digits
  | [] => []
  end.

(** [appendNano] for the layout [.999999999]: nothing for a whole second,
    else the nine digits without their trailing zeros. *)
Definition appendNano (nanosec : Z) : string :=
  if nanosec =? 0 then EmptyString
  else "." ++ string_of_list_ascii
         (rev (trim_zeros_rev (rev (list_ascii_of_string (appendInt nanosec 9))))).

(** [Time.appendFormatRFC3339] with nanoseconds (the layout [RFC3339Nano]). *)
Definition appendFormatRFC3339 (t : Time) : string :=
  let abs := unixSec t + zoneOffset t in
  let '(year, month, day) := civil_of_days (abs / 86400) in
  let secs := abs mod 86400 in
  let date := appendInt year 4 ++ "-" ++ appendInt month 2 ++ "-" ++ appendInt day 2 in
  let clock := appendInt (secs / 3600) 2 ++ ":" ++ appendInt (secs mod 3600 / 60) 2
               ++ ":" ++ appendInt (secs mod 60) 2 in
  let zone := Z.quot (zoneOffset t) 60 in
  date ++ "T" ++ clock ++ appendNano (nsec t) ++
  (if zoneOffset t =? 0 then "Z"
   else (if zone <? 0 then "-" else "+")
        ++ appendInt (Z.abs zone / 60) 2 ++ ":" ++ appendInt (Z.abs zone mod 60) 2).

Definition time_year (t : Time) : Z :=
  fst (fst (civil_of_days ((unixSec t + zoneOffset t) / 86400))).

(** [Time.MarshalJSON]: the quoted RFC 3339 text; a year that does not take
    exactly four digits or a zone of 24 hours or more is refused. *)
Definition Time_MarshalJSON (t : Time) : string + error :=
  if negb ((0 <=? time_year t) && (time_year t <=? 9999)) then
    inr "Time.MarshalJSON: year outside of range [0,9999]"
  else if negb (zoneOffset t =? 0) && (24 <=? Z.abs (Z.quot (zoneOffset t) 60) / 60) then
    inr "Time.MarshalJSON: timezone hour outside of range [0,23]"
  else inl (quoted (appendFormatRFC3339 t)).

(** ** The data model *)

(** [DataPoint] represents a single record from the pool_usage table. *)
Record DataPoint := {
  ID : Z;
  Timestamp : Time;
  Percentage : Z
}.

(** ** [encoding/json] *)

(** The object of a [DataPoint], its fields in declaration order under the
    names of their [json] tags. *)
Definition Marshal_DataPoint (dp : DataPoint) : string + error :=
  match Time_MarshalJSON (Timestamp dp) with
  | inr e => inr ("json: error calling MarshalJSON for type time.Time: " ++ e)
  | inl ts =>
      inl ("{" ++ quoted "id" ++ ":" ++ pretty (ID dp)
           ++ "," ++ quoted "timestamp" ++ ":" ++ ts
           ++ "," ++ quoted "percentage" ++ ":" ++ pretty (Percentage dp) ++ "}")
  end.

(** The elements of an array, left to right; the first error stops it. *)
Fixpoint Marshal_elems (dps : list DataPoint) : list string + error :=
  match dps with
  | [] => inl []
  | dp :: rest =>
      match Marshal_DataPoint dp with
      | inr e => inr e
      | inl js =>
          match Marshal_elems rest with
          | inr e => inr e
          | inl jss => inl (js :: jss)
          end
      end
  end.

(** [json.Marshal] at [[]DataPoint]: a nil slice is the JSON value [null],
    any other slice is an array. *)
Definition Marshal (v : slice DataPoint) : string + error :=
  match v with
  | nil_slice => inl "null"
  | slice_of dps =>
      match Marshal_elems dps with
      | inr e => inr e
      | inl jss => inl ("[" ++ Join jss "," ++ "]")
      end
  end.

(** ** [pgx]: result sets *)

(** A column value as the driver receives it. *)
Inductive Value :=
| VNull
| VInt (n : Z)
| VTime (t : Time)
| VText (s : string).

Definition RawRow := list Value.

(** Scanning one column into an [*int]. *)
Definition scan_int (i : Z) (v : Value) : Z + error :=
  match v with
  | VInt n =>
      if (minInt <=? n) && (n <=? maxInt) then inl n
      else inr ("can't scan into dest[" ++ pretty i ++ "]: value out of range for int")
  | VNull => inr ("can't scan into dest[" ++ pretty i ++ "]: cannot scan NULL into *int")
  | _ => inr ("can't scan into dest[" ++ pretty i ++ "]: cannot scan into *int")
  end.

(** Scanning one column into a [*time.Time]. *)
Definition scan_time (i : Z) (v : Value) : Time + error :=
  match v with
  | VTime t => inl t
  | VNull => inr ("can't scan into dest[" ++ pretty i ++ "]: cannot scan NULL into *time.Time")
  | _ => inr ("can't scan into dest[" ++ pretty i ++ "]: cannot scan into *time.Time")
  end.

(** [rows.Scan(&dp.ID, &dp.Timestamp, &dp.Percentage)] on the current row:
    the row must have as many columns as there are destinations, and every
    column must fit its destination. *)
Definition Scan (row : RawRow) : DataPoint + error :=
  match row with
  | [c0; c1; c2] =>
      match scan_int 0 c0 with
      | inr e => inr e
      | inl id =>
          match scan_time 1 c1 with
          | inr e => inr e
          | inl ts =>
              match scan_int 2 c2 with
              | inr e => inr e
              | inl pct => inl {| ID := id; Timestamp := ts; Percentage := pct |}
              end
          end
      end
  | _ => inr ("number of field descriptions must equal number of destinations, got "
              ++ pretty (Z.of_nat (length row)) ++ " and 3")
  end.

(** What [pool.Query] hands back: an error, or the rows of the result set in
    the order the store produced them. *)
Inductive QueryResult :=
| QueryFailed (err : error)
| QueryRows (rows : list RawRow).

(** The backing store as the pool shows it to the program: the answer to a
    query text. *)
Definition Store := string → QueryResult.

(** ** Programs over a signature of effects *)

(** A program returns, or calls the environment with [e] and goes on with
    what the call hands back. *)
Inductive Prog (E : Type → Type) (A : Type) : Type :=
| Ret (a : A)
| Vis {X : Type} (e : E X) (k : X → Prog E A).
Arguments Ret {E A} a.
Arguments Vis {E A X} e k.

Fixpoint bind {E A B} (m : Prog E A) (f : A → Prog E B) : Prog E B :=
  match m with
  | Ret a => f a
  | Vis e k => Vis e (λ x, bind (k x) f)
  end.

Definition call {E X} (e : E X) : Prog E X := Vis e Ret.

#[global] Instance Prog_ret {E} : MRet (Prog E) := λ A a, Ret a.
#[global] Instance Prog_bind {E} : MBind (Prog E) := λ A B f m, bind m f.

(** ** [net/http]: requests and the response of one request *)

Definition StatusOK : Z := 200.
Definition StatusInternalServerError : Z := 500.

(** [http.Header]: canonical keys to their values. *)
Abbreviation Header := (gmap string (list string)).

Record Request := {
  Method : string;
  URL_Path : string;
  Req_Header : Header;
  Req_Body : string
}.

(** The server's [*http.response].  [handlerHeader] is the map [w.Header()]
    returns; [sentHeader] is the copy of it taken when the status line is
    written, after which changes to the map no longer reach the client.
    [body] holds the bytes the connection accepted.  [conn_budget] is the
    number of bytes the connection still accepts before it breaks ([None]:
    it never breaks); write errors are sticky, as those of the buffered
    writer under [*http.response] are. *)
Record response := {
  handlerHeader : Header;
  wroteHeader : bool;
  status : Z;
  sentHeader : Header;
  body : string;
  conn_budget : option nat
}.

(** The response a handler starts from. *)
Definition new_response (budget : option nat) : response :=
  {| handlerHeader := ∅; wroteHeader := false; status := 0;
     sentHeader := ∅; body := EmptyString; conn_budget := budget |}.

Definition set_handlerHeader (h : Header) (w : response) : response :=
  {| handlerHeader := h; wroteHeader := wroteHeader w; status := status w;
     sentHeader := sentHeader w; body := body w; conn_budget := conn_budget w |}.

(** [Header.Get]: the first value under the key, or the empty string. *)
Definition Header_Get (h : Header) (key : string) : string :=
  match h !! key with
  | Some (v :: _) => v
  | _ => EmptyString
  end.

(** [w.WriteHeader(code)]: the first call fixes the status and the headers;
    a later call is superfluous and changes nothing. *)
Definition response_WriteHeader (code : Z) (w : response) : response :=
  if wroteHeader w then w
  else {| handlerHeader := handlerHeader w; wroteHeader := true; status := code;
          sentHeader := handlerHeader w; body := body w;
          conn_budget := conn_budget w |}.

(** The connection takes [p] whole, or what is left of its budget. *)
Definition conn_write (p : string) (w : response) : option error * response :=
  let put (sent : string) (left : option nat) :=
    {| handlerHeader := handlerHeader w; wroteHeader := wroteHeader w;
       status := status w; sentHeader := sentHeader w;
       body := body w ++ sent; conn_budget := left |} in
  match conn_budget w with
  | None => (None, put p None)
  | Some n =>
      if (String.length p <=? n)%nat
      then (None, put p (Some (n - String.length p)%nat))
      else (Some "write: broken pipe", put (string_take n p) (Some 0%nat))
  end.

(** [w.Write(p)]: a write before [WriteHeader] sends status 200 first. *)
Definition response_Write (p : string) (w : response) : option error * response :=
  let w1 := response_WriteHeader StatusOK w in
  if (String.length p =? 0)%nat then (None, w1) else conn_write p w1.

(** ** [pgxpool] *)

Record Config := { ConnString : string }.
Record Pool := { pool_config : Config }.

(** ** The effects of a handler *)

Inductive HEff : Type → Type :=
| eHeaderSet (key value : string) : HEff unit
| eHeaderDel (key : string) : HEff unit
| eWriteHeader (statusCode : Z) : HEff unit
| eWrite (p : string) : HEff (option error)
| eQuery (pool : Pool) (sql : string) : HEff QueryResult
| eRowsClose : HEff unit
| eLog (line : string) : HEff unit.

(** [w.Header().Set(key, value)] *)
Definition w_Header_Set (key value : string) : Prog HEff unit := call (eHeaderSet key value).
(** [w.Header().Del(key)] *)
Definition w_Header_Del (key : string) : Prog HEff unit := call (eHeaderDel key).
(** [w.WriteHeader(statusCode)] *)
Definition w_WriteHeader (statusCode : Z) : Prog HEff unit := call (eWriteHeader statusCode).
(** [w.Write(p)], of which the callers here use the error only *)
Definition w_Write (p : string) : Prog HEff (option error) := call (eWrite p).
(** [pool.Query(context.Background(), sql)] *)
Definition pool_Query (pool : Pool) (sql : string) : Prog HEff QueryResult := call (eQuery pool sql).
(** [rows.Close()] *)
Definition rows_Close : Prog HEff unit := call eRowsClose.
(** [log.Println(args...)]: the operands separated by spaces, one line. *)
Definition log_Println (args : list string) : Prog HEff unit := call (eLog (Join args " ")).

Definition HandlerFunc := Request → Prog HEff unit.

(** [http.Error(w, error, code)] *)
Definition http_Error (error : string) (code : Z) : Prog HEff unit :=
  w_Header_Del "Content-Length" ;;
  w_Header_Set "Content-Type" "text/plain; charset=utf-8" ;;
  w_Header_Set "X-Content-Type-Options" "nosniff" ;;
  w_WriteHeader code ;;
  _ ← w_Write (error ++ newline);
  mret tt.

(** [json.NewEncoder(w).Encode(v)]: the value is marshalled in full first;
    then the text and a newline go to [w] in one write. *)
Definition Encoder_Encode (v : slice DataPoint) : Prog HEff (option error) :=
  match Marshal v with
  | inr e => mret (Some e)
  | inl b => w_Write (b ++ newline)
  end.

(** ** [main.go] *)

Definition pool_usage_query : string :=
  "SELECT id, timestamp, percentage FROM pool_usage ORDER BY timestamp".

(** The loop [for rows.Next() { ... }] of [getDataHandler] over the rows
    still to come.  [None] is the [return] out of the handler from inside
    the loop; [Some dataPoints] is the loop running to its end. *)
Fixpoint collect (rows : list RawRow) (dataPoints : slice DataPoint)
  : Prog HEff (option (slice DataPoint)) :=
  match rows with
  | [] => mret (Some dataPoints)
  | row :: rest =>
      match Scan row with
      | inr err =>
          http_Error "Failed to scan row" StatusInternalServerError ;;
          log_Println ["Error scanning row:"; err] ;;
          mret None
      | inl dp => collect rest (append dataPoints dp)
      end
  end.

(** [getDataHandler] handles the /data endpoint and returns all data points
    as JSON. *)
Definition getDataHandler (pool : Pool) : HandlerFunc := λ r,
  w_Header_Set "Access-Control-Allow-Origin" "*" ;;
  res ← pool_Query pool pool_usage_query;
  match res with
  | QueryFailed err =>
      http_Error "Failed to query the database" StatusInternalServerError ;;
      log_Println ["Error querying database:"; err]
  | QueryRows rows =>
      (collected ← collect rows nil_slice;
       match collected with
       | None => mret tt
       | Some dataPoints =>
           w_Header_Set "Content-Type" "application/json" ;;
           err ← Encoder_Encode dataPoints;
           match err with
           | Some err =>
               http_Error "Failed to encode response" StatusInternalServerError ;;
               log_Println ["Error encoding response:"; err]
           | None => mret tt
           end
       end) ;;
      rows_Close
  end.

(** [getDatabasePool] and [main] call the process environment. *)
Inductive PEff : Type → Type :=
| eGetenv (key : string) : PEff string
| eParseConfig (connString : string) : PEff (Config + error)
| eNewWithConfig (config : Config) : PEff (Pool + error)
| eHandleFunc (pattern : string) (handler : HandlerFunc) : PEff unit
| ePrintf (line : string) : PEff unit
| eFatalf (line : string) : PEff Empty_set
| eListenAndServe (addr : string) : PEff (option error)
| ePoolClose (pool : Pool) : PEff unit.

(** [log.Fatalf] prints and exits: nothing runs after it. *)
Definition log_Fatalf {A} (line : string) : Prog PEff A :=
  Vis (eFatalf line) (λ never : Empty_set, match never with end).

(** [getDatabasePool] initializes a connection pool to the PostgreSQL
    database. *)
Definition getDatabasePool : Prog PEff (Pool + error) :=
  dbURL ← call (eGetenv "DATABASE_URL");
  if String.eqb dbURL EmptyString then
    mret (inr "DATABASE_URL environment variable is not set")
  else
    parsed ← call (eParseConfig dbURL);
    match parsed with
    | inr err => mret (inr ("unable to parse DATABASE_URL: " ++ err))
    | inl config =>
        created ← call (eNewWithConfig config);
        match created with
        | inr err => mret (inr ("unable to create connection pool: " ++ err))
        | inl pool => mret (inl pool)
        end
    end.

(** [main]; the deferred [pool.Close()] is the last call of the body. *)
Definition main : Prog PEff unit :=
  got ← getDatabasePool;
  match got with
  | inr err => log_Fatalf ("Error initializing database connection: " ++ err)
  | inl pool =>
      call (eHandleFunc "/pool-data" (getDataHandler pool)) ;;
      call (ePrintf ("Starting server on port " ++ ":8080" ++ "...")) ;;
      err ← call (eListenAndServe ":8080");
      match err with
      | Some err => log_Fatalf ("Failed to start server: " ++ err)
      | None => mret tt
      end ;;
      call (ePoolClose pool)
  end.

(** ** Running a handler *)

(** What a handler did, call by call. *)
Inductive Event :=
| EvHeaderSet (key value : string)
| EvHeaderDel (key : string)
| EvWriteHeader (statusCode : Z)
| EvWrite (p : string)
| EvQuery (sql : string)
| EvRowsClose
| EvLog (line : string).

Definition event_of {X} (e : HEff X) : Event :=
  match e with
  | eHeaderSet k v => EvHeaderSet k v
  | eHeaderDel k => EvHeaderDel k
  | eWriteHeader c => EvWriteHeader c
  | eWrite p => EvWrite p
  | eQuery _ sql => EvQuery sql
  | eRowsClose => EvRowsClose
  | eLog line => EvLog line
  end.

(** The lines a call sends to the standard logger (without the date and
    time the logger puts in front). *)
Definition log_of {X} (e : HEff X) : list string :=
  match e with
  | eLog line => [line]
  | _ => []
  end.

(** One call against the response of the request and the store. *)
Definition handle (store : Store) {X} (e : HEff X) (w : response) : X * response :=
  match e in HEff X return X * response with
  | eHeaderSet k v => (tt, set_handlerHeader (<[k := [v]]> (handlerHeader w)) w)
  | eHeaderDel k => (tt, set_handlerHeader (delete k (handlerHeader w)) w)
  | eWriteHeader c => (tt, response_WriteHeader c w)
  | eWrite p => response_Write p w
  | eQuery _ sql => (store sql, w)
  | eRowsClose => (tt, w)
  | eLog _ => (tt, w)
  end.

(** The outcome of a run: the value returned, the response, the lines
    logged and the calls made, in order. *)
Record Exec (A : Type) := {
  returned : A;
  writer : response;
  logged : list string;
  trace : list Event
}.
Arguments returned {A}.
Arguments writer {A}.
Arguments logged {A}.
Arguments trace {A}.

(** The outcome of a run that starts with the call [e]. *)
Definition before {X A} (e : HEff X) (rest : Exec A) : Exec A :=
  {| returned := returned rest; writer := writer rest;
     logged := log_of e ++ logged rest;
     trace := event_of e :: trace rest |}.

Fixpoint run (store : Store) {A} (p : Prog HEff A) (w : response) : Exec A :=
  match p with
  | Ret a => {| returned := a; writer := w; logged := []; trace := [] |}
  | Vis e k =>
      let answered := handle store e w in
      before e (run store (k (fst answered)) (snd answered))
  end.

(** What the client of a request is sent. *)
Record Reply := {
  reply_status : Z;
  reply_header : Header;
  reply_body : string
}.

Definition reply_of (w : response) : Reply :=
  {| reply_status := status w; reply_header := sentHeader w; reply_body := body w |}.

(** A request served by [h] over a connection with the given budget. *)
Definition serve (store : Store) (h : HandlerFunc) (r : Request) (budget : option nat)
  : Exec unit :=
  run store (h r) (new_response budget).

(** ** Requests in flight together *)

(** A request in flight: the rest of its handler and its own response. *)
Record Thread := {
  code : Prog HEff unit;
  tw : response
}.

Definition finished (t : Thread) : bool :=
  match code t with
  | Ret _ => true
  | Vis _ _ => false
  end.

(** One call of a thread; a finished thread stays as it is. *)
Definition step (store : Store) (t : Thread) : Thread * list string :=
  match code t with
  | Ret _ => (t, [])
  | Vis e k =>
      let answered := handle store e (tw t) in
      ({| code := k (fst answered); tw := snd answered |}, log_of e)
  end.

Fixpoint steps (store : Store) (n : nat) (t : Thread) : Thread :=
  match n with
  | O => t
  | S n' => steps store n' (fst (step store t))
  end.

(** The server: the requests in flight and the one standard logger. *)
Record Server := {
  threads : list Thread;
  stderr : list string
}.

(** The scheduler lets thread [i] make its next call. *)
Definition sched_step (store : Store) (srv : Server) (i : nat) : Server :=
  match threads srv !! i with
  | None => srv
  | Some t =>
      let stepped := step store t in
      {| threads := <[i := fst stepped]> (threads srv);
         stderr := stderr srv ++ snd stepped |}
  end.

(** A schedule names the thread to run at each turn. *)
Definition run_schedule (store : Store) (sched : list nat) (srv : Server) : Server :=
  foldl (sched_step store) srv sched.

Definition spawn (h : HandlerFunc) (budget : option nat) (r : Request) : Thread :=
  {| code := h r; tw := new_response budget |}.

(** How often the schedule runs thread [i]. *)
Definition turns (i : nat) (sched : list nat) : nat :=
  length (filter (λ j, j = i) sched).

(** ** [http.ServeMux] *)






Definition ServeMux := list (string * HandlerFunc).




(** ** Running the process *)

(** What the process finds around it: the environment variables, what
    [pgxpool.ParseConfig] and [pgxpool.NewWithConfig] answer, and whether
    the listener comes up ([None]: it does, and [ListenAndServe] serves
    without returning; [Some err]: it returns [err]). *)
Record Env := {
  environ : gmap string string;
  parse_config : string → Config + error;
  new_pool : Config → Pool + error;
  listen : string → option error
}.

Inductive PEvent :=
| PGetenv (key : string)
| PParseConfig (connString : string)
| PNewWithConfig (config : Config)
| PHandleFunc (pattern : string)
| PPrintf (line : string)
| PFatalf (line : string)
| PListenAndServe (addr : string)
| PPoolClose (pool : Pool).

Definition pevent_of {X} (e : PEff X) : PEvent :=
  match e with
  | eGetenv key => PGetenv key
  | eParseConfig s => PParseConfig s
  | eNewWithConfig c => PNewWithConfig c
  | eHandleFunc pattern _ => PHandleFunc pattern
  | ePrintf line => PPrintf line
  | eFatalf line => PFatalf line
  | eListenAndServe addr => PListenAndServe addr
  | ePoolClose pool => PPoolClose pool
  end.

Inductive ProcStatus :=
| Exited (exitCode : Z)
| Serving (addr : string)
| Returned.

(** A call returns to the program, or the program never gets control
    back. *)
Inductive Answer (X : Type) :=
| Returns (x : X)
| Stops (st : ProcStatus).
Arguments Returns {X} x.
Arguments Stops {X} st.

(** [os.Getenv] yields the empty string for a variable that is not set;
    [log.Fatalf] ends in [os.Exit(1)]. *)
Definition answer (env : Env) {X} (e : PEff X) : Answer X :=
  match e in PEff X return Answer X with
  | eGetenv key => Returns (default EmptyString (environ env !! key))
  | eParseConfig s => Returns (parse_config env s)
  | eNewWithConfig c => Returns (new_pool env c)
  | eHandleFunc _ _ => Returns tt
  | ePrintf _ => Returns tt
  | eFatalf _ => Stops (Exited 1)
  | eListenAndServe addr =>
      match listen env addr with
      | None => Stops (Serving addr)
      | Some err => Returns (Some err)
      end
  | ePoolClose _ => Returns tt
  end.

(** [http.HandleFunc] adds to the default mux. *)
Definition mux_after {X} (e : PEff X) (mux : ServeMux) : ServeMux :=
  match e with
  | eHandleFunc pattern h => (mux ++ [(pattern, h)])%list
  | _ => mux
  end.

Definition plog_of {X} (e : PEff X) : list string :=
  match e with
  | ePrintf line => [line]
  | eFatalf line => [line]
  | _ => []
  end.

(** The process after a run: the routes registered, the lines logged, the
    calls made, how the run ended, and the value it returned if it did. *)
Record Process (A : Type) := {
  DefaultServeMux : ServeMux;
  proc_log : list string;
  proc_trace : list PEvent;
  proc_status : ProcStatus;
  proc_result : option A
}.
Arguments DefaultServeMux {A}.
Arguments proc_log {A}.
Arguments proc_trace {A}.
Arguments proc_status {A}.
Arguments proc_result {A}.

Fixpoint run_process (env : Env) {A} (p : Prog PEff A) (mux : ServeMux) : Process A :=
  match p with
  | Ret a =>
      {| DefaultServeMux := mux; proc_log := []; proc_trace := [];
         proc_status := Returned; proc_result := Some a |}
  | Vis e k =>
      match answer env e with
      | Stops st =>
          {| DefaultServeMux := mux; proc_log := plog_of e;
             proc_trace := [pevent_of e]; proc_status := st;
             proc_result := None |}
      | Returns x =>
          let rest := run_process env (k x) (mux_after e mux) in
          {| DefaultServeMux := DefaultServeMux rest;
             proc_log := plog_of e ++ proc_log rest;
             proc_trace := pevent_of e :: proc_trace rest;
             proc_status := proc_status rest;
             proc_result := proc_result rest |}
      end
  end.

(** The process from its start. *)
Definition start (env : Env) : Process unit := run_process env main [].


(** ** Vocabulary of the statements *)

(** The connection takes [p] whole. *)
Definition fits (p : string) (budget : option nat) : Prop :=
  match budget with
  | None => True
  | Some n => (String.length p <= n)%nat
  end.

(** Row [row] decodes into [dp]. *)
Definition decodes (row : RawRow) (dp : DataPoint) : Prop := Scan row = inl dp.

(** The timestamp column of a row of the result set. *)
Definition row_timestamp (row : RawRow) : option Time :=
  match row with
  | [_; VTime t; _] => Some t
  | _ => None
  end.

(** The order [ORDER BY timestamp] leaves two consecutive rows in. *)
Definition row_le (a b : RawRow) : Prop :=
  match row_timestamp a, row_timestamp b with
  | Some t, Some u => time_le t u
  | _, _ => True
  end.




(** The headers of the two kinds of reply the handler sends. *)
Definition json_header : Header :=
  <["Content-Type" := ["application/json"]]>
    (<["Access-Control-Allow-Origin" := ["*"]]> ∅).

Definition error_header : Header :=
  <["X-Content-Type-Options" := ["nosniff"]]>
    (<["Content-Type" := ["text/plain; charset=utf-8"]]>
       (delete "Content-Length" (<["Access-Control-Allow-Origin" := ["*"]]> ∅))).

(** The response after [w.Header().Set("Access-Control-Allow-Origin", "*")]
    and after [w.Header().Set("Content-Type", "application/json")]. *)
Definition cors (w : response) : response :=
  set_handlerHeader (<["Access-Control-Allow-Origin" := ["*"]]> (handlerHeader w)) w.

Definition json_typed (w : response) : response :=
  set_handlerHeader (<["Content-Type" := ["application/json"]]> (handlerHeader w)) w.

(** The response [http.Error] leaves behind, and the calls it makes. *)
Definition Error_writer (msg : string) (code : Z) (w : response) : response :=
  snd (response_Write (msg ++ newline)
         (response_WriteHeader code
            (set_handlerHeader
               (<["X-Content-Type-Options" := ["nosniff"]]>
                  (<["Content-Type" := ["text/plain; charset=utf-8"]]>
                     (delete "Content-Length" (handlerHeader w)))) w))).

Definition Error_trace (msg : string) (code : Z) : list Event :=
  [EvHeaderDel "Content-Length";
   EvHeaderSet "Content-Type" "text/plain; charset=utf-8";
   EvHeaderSet "X-Content-Type-Options" "nosniff";
   EvWriteHeader code;
   EvWrite (msg ++ newline)].

(** ** Sample inputs *)

Definition sample_pool : Pool :=
  {| pool_config := {| ConnString := "postgres://pool:pool@db:5432/pool" |} |}.

Definition sample_request (m : string) : Request :=
  {| Method := m; URL_Path := "/pool-data"; Req_Header := ∅;
     Req_Body := EmptyString |}.

(** The table of the end-to-end example: (1, 2024-01-01T00:00:00Z, 42) and
    (2, 2024-01-01T01:00:00Z, 87). *)
Definition example_rows : list RawRow :=
  [ [VInt 1; VTime (Date 2024 1 1 0 0 0 0); VInt 42];
    [VInt 2; VTime (Date 2024 1 1 1 0 0 0); VInt 87] ].

Definition example_points : list DataPoint :=
  [ {| ID := 1; Timestamp := Date 2024 1 1 0 0 0 0; Percentage := 42 |};
    {| ID := 2; Timestamp := Date 2024 1 1 1 0 0 0; Percentage := 87 |} ].

Definition example_json : string :=
  json_text "[{'id':1,'timestamp':'2024-01-01T00:00:00Z','percentage':42},{'id':2,'timestamp':'2024-01-01T01:00:00Z','percentage':87}]".

(** A store that answers every query with the same result. *)
Definition stable_store (res : QueryResult) : Store := λ _, res.

(** A row with a column missing, and a row whose year does not fit RFC 3339. *)
Definition short_row : RawRow := [VInt 3; VTime (Date 2024 1 1 2 0 0 0)].

Definition far_row : RawRow := [VInt 3; VTime (Date 10000 1 1 0 0 0 0); VInt 5].

(** An environment in which the process comes up, whatever [DATABASE_URL]
    holds. *)
Definition sample_env (vars : gmap string string) : Env :=
  {| environ := vars;
     parse_config := λ s, inl {| ConnString := s |};
     new_pool := λ c, inl {| pool_config := c |};
     listen := λ _, None |}.

(** The objects of the two records of the example. *)
Definition example_objects : list string :=
  [ json_text "{'id':1,'timestamp':'2024-01-01T00:00:00Z','percentage':42}";
    json_text "{'id':2,'timestamp':'2024-01-01T01:00:00Z','percentage':87}" ].

(** ** More sample inputs *)

(** Environments in which the start of the process fails at one step:
    [ParseConfig] refuses the connection string, [NewWithConfig] cannot build
    the pool, the listener does not come up. *)
Definition unparsable_env : Env :=
  {| environ := {["DATABASE_URL" := "db.example.org"]};
     parse_config := λ _, inr "cannot parse `db.example.org`: failed to parse as keyword/value (invalid keyword/value)";
     new_pool := λ c, inl {| pool_config := c |};
     listen := λ _, None |}.

Definition no_pool_env : Env :=
  {| environ := {["DATABASE_URL" := "postgres://pool:pool@db:5432/pool"]};
     parse_config := λ s, inl {| ConnString := s |};
     new_pool := λ _, inr "cannot allocate";
     listen := λ _, None |}.

Definition busy_port_env : Env :=
  {| environ := {["DATABASE_URL" := "postgres://pool:pool@db:5432/pool"]};
     parse_config := λ s, inl {| ConnString := s |};
     new_pool := λ c, inl {| pool_config := c |};
     listen := λ _, Some "listen tcp :8080: bind: address already in use" |}.



(** The calls of a run that are queries, and those that close the rows. *)
Definition is_query (ev : Event) : bool :=
  match ev with
  | EvQuery _ => true
  | _ => false
  end.

Definition is_rows_close (ev : Event) : bool :=
  match ev with
  | EvRowsClose => true
  | _ => false
  end.

Definition is_write (ev : Event) : bool :=
  match ev with
  | EvWrite _ => true
  | _ => false
  end.

(** * Properties *)

(** ** Strings and slices *)

Lemma length_append (s1 s2 : string) :
  String.length (s1 ++ s2) = (String.length s1 + String.length s2)%nat.
Proof. induction s1 as [|c s1 IH]; simpl; [reflexivity | exact (f_equal S IH)]. Qed.

Lemma append_empty_r (s : string) : s ++ EmptyString = s.
Proof. induction s as [|c s IH]; simpl; [reflexivity | exact (f_equal (String c) IH)]. Qed.

Lemma length_line (s : string) : (0 < String.length (s ++ newline))%nat.
Proof. rewrite length_append. simpl. lia. Qed.


Lemma string_take_0 (s : string) : string_take 0 s = EmptyString.
Proof. by destruct s. Qed.

Lemma foldl_append_elems (dps : list DataPoint) (acc : slice DataPoint) :
  slice_elems (foldl append acc dps) = (slice_elems acc ++ dps)%list.
Proof.
  revert acc. induction dps as [|dp dps IH]; intros acc; simpl.
  - by rewrite app_nil_r.
  - rewrite IH. simpl. by rewrite <- app_assoc.
Qed.

Lemma foldl_append_nil (dps : list DataPoint) :
  foldl append nil_slice dps =
  match dps with [] => nil_slice | _ => slice_of dps end.
Proof.
  destruct dps as [|dp dps]; [reflexivity|].
  pose proof (foldl_append_elems (dp :: dps) nil_slice) as H.
  simpl in *. destruct (foldl append _ dps) eqn:E.
  - destruct dps; simpl in *; discriminate.
  - simpl in H. by subst.
Qed.

(** ** The row loop *)

Lemma collect_decoded (rows : list RawRow) (dps : list DataPoint) :
  Forall2 decodes rows dps →
  ∀ acc, collect rows acc = Ret (Some (foldl append acc dps)).
Proof.
  induction 1 as [|row dp rows dps Hrow _ IH]; intros acc; simpl.
  - reflexivity.
  - rewrite Hrow. apply IH.
Qed.

Lemma collect_failed (pre : list RawRow) (dps : list DataPoint) bad err rest :
  Forall2 decodes pre dps → Scan bad = inr err →
  ∀ acc, collect (pre ++ bad :: rest) acc =
         (http_Error "Failed to scan row" StatusInternalServerError ;;
          log_Println ["Error scanning row:"; err] ;;
          mret None).
Proof.
  induction 1 as [|row dp pre dps Hrow _ IH]; intros Hbad acc; simpl.
  - by rewrite Hbad.
  - rewrite Hrow. by apply IH.
Qed.

(** Every result set decodes in full, or has a first row that does not. *)
Lemma rows_decode_cases (rows : list RawRow) :
  (∃ dps, Forall2 decodes rows dps) ∨
  (∃ pre dps bad err rest,
      rows = (pre ++ bad :: rest)%list ∧ Forall2 decodes pre dps ∧ Scan bad = inr err).
Proof.
  induction rows as [|row rows IH].
  - left. exists []. constructor.
  - destruct (Scan row) as [dp|err] eqn:Hrow.
    + destruct IH as [[dps H]|(pre & dps & bad & err & rest & -> & H & Hbad)].
      * left. exists (dp :: dps). by constructor.
      * right. exists (row :: pre), (dp :: dps), bad, err, rest.
        split; [reflexivity|]. split; [by constructor | done].
    + right. exists [], [], row, err, rows. split; [reflexivity|].
      split; [constructor | done].
Qed.

Ltac prog_simpl :=
  cbn [mbind mret Prog_bind Prog_ret bind call w_Header_Set w_Header_Del
       w_WriteHeader w_Write pool_Query rows_Close log_Println run handle
       fst snd].

Section Runs.
Variable store : Store.

Lemma run_bind {A B} (m : Prog HEff A) (f : A → Prog HEff B) w :
  run store (m ≫= f) w =
  let e1 := run store m w in
  let e2 := run store (f (returned e1)) (writer e1) in
  {| returned := returned e2; writer := writer e2;
     logged := logged e1 ++ logged e2; trace := trace e1 ++ trace e2 |}.
Proof.
  revert w. induction m as [a|X e k IH]; intros w.
  - cbn. by destruct (run store (f a) w).
  - cbn [mbind Prog_bind bind run]. unfold mbind, Prog_bind in IH. rewrite IH.
    unfold before. cbn. by rewrite app_assoc.
Qed.

Lemma run_http_Error msg code w :
  run store (http_Error msg code) w =
  {| returned := tt; writer := Error_writer msg code w; logged := [];
     trace := Error_trace msg code |}.
Proof. destruct w. reflexivity. Qed.


(** ** Writing to the response *)

Lemma Write_fresh p w :
  wroteHeader w = false →
  let w' := snd (response_Write p w) in
  wroteHeader w' = true ∧ status w' = StatusOK ∧ sentHeader w' = handlerHeader w.
Proof.
  intros Hw. unfold response_Write, response_WriteHeader, conn_write. rewrite Hw.
  destruct (String.length p =? 0)%nat; [done|]. cbn.
  destruct (conn_budget w) as [n|]; [|done].
  by destruct (String.length p <=? n)%nat.
Qed.

Lemma Write_sent p w :
  wroteHeader w = true →
  let w' := snd (response_Write p w) in
  wroteHeader w' = true ∧ status w' = status w ∧ sentHeader w' = sentHeader w.
Proof.
  intros Hw. unfold response_Write, response_WriteHeader, conn_write. rewrite Hw.
  destruct (String.length p =? 0)%nat; [done|].
  destruct (conn_budget w) as [n|]; [|done].
  by destruct (String.length p <=? n)%nat.
Qed.

Lemma Write_fits p w :
  (0 < String.length p)%nat → fits p (conn_budget w) →
  fst (response_Write p w) = None ∧ body (snd (response_Write p w)) = body w ++ p.
Proof.
  intros Hp Hfit. unfold response_Write.
  destruct (Nat.eqb_spec (String.length p) 0) as [E|_]; [lia|].
  unfold conn_write, response_WriteHeader.
  destruct (wroteHeader w); cbn; destruct (conn_budget w) as [n|]; cbn in *; try done;
    destruct (Nat.leb_spec (String.length p) n); try done; lia.
Qed.

Lemma Write_short p w n :
  conn_budget w = Some n → (n < String.length p)%nat →
  fst (response_Write p w) = Some "write: broken pipe"
  ∧ body (snd (response_Write p w)) = body w ++ string_take n p
  ∧ conn_budget (snd (response_Write p w)) = Some 0%nat.
Proof.
  intros Hb Hn. unfold response_Write.
  destruct (Nat.eqb_spec (String.length p) 0) as [E|_]; [lia|].
  unfold conn_write, response_WriteHeader.
  destruct (wroteHeader w); cbn; rewrite Hb;
    destruct (Nat.leb_spec (String.length p) n); try done; lia.
Qed.

Lemma Error_writer_fresh msg code w :
  wroteHeader w = false →
  let w' := Error_writer msg code w in
  wroteHeader w' = true ∧ status w' = code ∧
  sentHeader w' =
    <["X-Content-Type-Options" := ["nosniff"]]>
      (<["Content-Type" := ["text/plain; charset=utf-8"]]>
         (delete "Content-Length" (handlerHeader w))).
Proof.
  intros Hw. unfold Error_writer.
  match goal with |- context [response_Write ?p ?w0] =>
    pose proof (Write_sent p w0) as H end.
  unfold response_WriteHeader in *. cbn in *. rewrite Hw in *. cbn in *.
  destruct H as (-> & -> & ->); done.
Qed.

Lemma Error_writer_sent msg code w :
  wroteHeader w = true →
  let w' := Error_writer msg code w in
  wroteHeader w' = true ∧ status w' = status w ∧ sentHeader w' = sentHeader w.
Proof.
  intros Hw. unfold Error_writer.
  match goal with |- context [response_Write ?p ?w0] =>
    pose proof (Write_sent p w0) as H end.
  unfold response_WriteHeader in *. cbn in *. rewrite Hw in *. cbn in *.
  destruct H as (-> & -> & ->); done.
Qed.

Lemma Error_writer_body msg code w :
  fits (msg ++ newline) (conn_budget w) →
  body (Error_writer msg code w) = body w ++ msg ++ newline.
Proof.
  intros Hfit. unfold Error_writer.
  match goal with |- context [response_Write ?p ?w0] =>
    destruct (Write_fits p w0) as [_ ->] end; try done.
  - apply length_line.
  - unfold response_WriteHeader. cbn. by destruct (wroteHeader w).
  - unfold response_WriteHeader. cbn. by destruct (wroteHeader w).
Qed.

Lemma Error_writer_broken msg code w :
  conn_budget w = Some 0%nat →
  body (Error_writer msg code w) = body w.
Proof.
  intros Hb. unfold Error_writer.
  match goal with |- context [response_Write ?p ?w0] =>
    destruct (Write_short p w0 0) as (_ & -> & _) end.
  - unfold response_WriteHeader. cbn. by destruct (wroteHeader w).
  - apply length_line.
  - rewrite string_take_0, append_empty_r.
    unfold response_WriteHeader. cbn. by destruct (wroteHeader w).
Qed.

(** ** The ways through the handler *)

Section Paths.
Variable pool : Pool.
Variable r : Request.

Lemma run_query_failed w err :
  store pool_usage_query = QueryFailed err →
  run store (getDataHandler pool r) w =
  {| returned := tt;
     writer := Error_writer "Failed to query the database" StatusInternalServerError (cors w);
     logged := ["Error querying database: " ++ err];
     trace := EvHeaderSet "Access-Control-Allow-Origin" "*"
              :: EvQuery pool_usage_query
              :: Error_trace "Failed to query the database" StatusInternalServerError
              ++ [EvLog ("Error querying database: " ++ err)] |}.
Proof.
  intros Hq. unfold getDataHandler.
  prog_simpl.
  rewrite Hq. fold (cors w).
  change (bind ?m ?f) with (m ≫= f). rewrite run_bind, run_http_Error.
  reflexivity.
Qed.

Lemma run_row_failed w pre dps bad err rest :
  store pool_usage_query = QueryRows (pre ++ bad :: rest) →
  Forall2 decodes pre dps → Scan bad = inr err →
  run store (getDataHandler pool r) w =
  {| returned := tt;
     writer := Error_writer "Failed to scan row" StatusInternalServerError (cors w);
     logged := ["Error scanning row: " ++ err];
     trace := EvHeaderSet "Access-Control-Allow-Origin" "*"
              :: EvQuery pool_usage_query
              :: Error_trace "Failed to scan row" StatusInternalServerError
              ++ [EvLog ("Error scanning row: " ++ err); EvRowsClose] |}.
Proof.
  intros Hq Hpre Hbad. unfold getDataHandler.
  prog_simpl.
  rewrite Hq. fold (cors w).
  rewrite (collect_failed pre dps bad err rest Hpre Hbad).
  change (bind ?m ?f) with (m ≫= f). rewrite !run_bind, run_http_Error.
  reflexivity.
Qed.

Lemma run_marshal_failed w rows dps err :
  store pool_usage_query = QueryRows rows →
  Forall2 decodes rows dps →
  Marshal (foldl append nil_slice dps) = inr err →
  run store (getDataHandler pool r) w =
  {| returned := tt;
     writer := Error_writer "Failed to encode response" StatusInternalServerError
                 (json_typed (cors w));
     logged := ["Error encoding response: " ++ err];
     trace := EvHeaderSet "Access-Control-Allow-Origin" "*"
              :: EvQuery pool_usage_query
              :: EvHeaderSet "Content-Type" "application/json"
              :: Error_trace "Failed to encode response" StatusInternalServerError
              ++ [EvLog ("Error encoding response: " ++ err); EvRowsClose] |}.
Proof.
  intros Hq Hrows Hm. unfold getDataHandler.
  prog_simpl.
  rewrite Hq. fold (cors w).
  rewrite (collect_decoded rows dps Hrows).
  prog_simpl.
  unfold Encoder_Encode. rewrite Hm. prog_simpl.
  change (bind ?m ?f) with (m ≫= f). rewrite !run_bind, run_http_Error.
  reflexivity.
Qed.

Lemma run_encoded w rows dps js :
  store pool_usage_query = QueryRows rows →
  Forall2 decodes rows dps →
  Marshal (foldl append nil_slice dps) = inl js →
  let wr := response_Write (js ++ newline) (json_typed (cors w)) in
  run store (getDataHandler pool r) w =
  match fst wr with
  | None =>
      {| returned := tt; writer := snd wr; logged := [];
         trace := [EvHeaderSet "Access-Control-Allow-Origin" "*";
                   EvQuery pool_usage_query;
                   EvHeaderSet "Content-Type" "application/json";
                   EvWrite (js ++ newline);
                   EvRowsClose] |}
  | Some err =>
      {| returned := tt;
         writer := Error_writer "Failed to encode response" StatusInternalServerError (snd wr);
         logged := ["Error encoding response: " ++ err];
         trace := EvHeaderSet "Access-Control-Allow-Origin" "*"
                  :: EvQuery pool_usage_query
                  :: EvHeaderSet "Content-Type" "application/json"
                  :: EvWrite (js ++ newline)
                  :: Error_trace "Failed to encode response" StatusInternalServerError
                  ++ [EvLog ("Error encoding response: " ++ err); EvRowsClose] |}
  end.
Proof.
  intros Hq Hrows Hm wr. unfold getDataHandler.
  prog_simpl.
  rewrite Hq. fold (cors w).
  rewrite (collect_decoded rows dps Hrows).
  prog_simpl.
  unfold Encoder_Encode. rewrite Hm. prog_simpl.
  fold (json_typed (cors w)). fold wr.
  destruct (fst wr) as [err|].
  - change (bind ?m ?f) with (m ≫= f). rewrite !run_bind, run_http_Error.
    reflexivity.
  - reflexivity.
Qed.

End Paths.
End Runs.

(** ** Replies *)

Lemma reply_ext (w : response) st h b :
  status w = st → sentHeader w = h → body w = b →
  reply_of w = {| reply_status := st; reply_header := h; reply_body := b |}.
Proof. intros <- <- <-. reflexivity. Qed.

Lemma reply_inv (w : response) st h b :
  reply_of w = {| reply_status := st; reply_header := h; reply_body := b |} →
  status w = st ∧ sentHeader w = h ∧ body w = b.
Proof. unfold reply_of. by intros [= -> -> ->]. Qed.

(** The reply of [http.Error] on a response nothing was written to yet. *)
Lemma Error_reply msg code w :
  wroteHeader w = false → body w = EmptyString →
  fits (msg ++ newline) (conn_budget w) →
  reply_of (Error_writer msg code w) =
  {| reply_status := code;
     reply_header :=
       <["X-Content-Type-Options" := ["nosniff"]]>
         (<["Content-Type" := ["text/plain; charset=utf-8"]]>
            (delete "Content-Length" (handlerHeader w)));
     reply_body := msg ++ newline |}.
Proof.
  intros Hw Hb Hfit.
  destruct (Error_writer_fresh msg code w Hw) as (_ & Hst & Hh).
  apply reply_ext; [done | done |].
  rewrite Error_writer_body by done. by rewrite Hb.
Qed.

(** The run that ends in a complete JSON text. *)
Lemma run_success store pool r budget rows dps js :
  store pool_usage_query = QueryRows rows →
  Forall2 decodes rows dps →
  Marshal (foldl append nil_slice dps) = inl js →
  fits (js ++ newline) budget →
  let e := serve store (getDataHandler pool) r budget in
  reply_of (writer e) =
    {| reply_status := 200; reply_header := json_header; reply_body := js ++ newline |}
  ∧ logged e = []
  ∧ trace e = [EvHeaderSet "Access-Control-Allow-Origin" "*";
               EvQuery pool_usage_query;
               EvHeaderSet "Content-Type" "application/json";
               EvWrite (js ++ newline);
               EvRowsClose].
Proof.
  intros Hq Hrows Hm Hfit e. subst e. unfold serve.
  rewrite (run_encoded store pool r _ rows dps js Hq Hrows Hm). cbv zeta.
  set (w := json_typed (cors (new_response budget))).
  destruct (Write_fits (js ++ newline) w (length_line js) Hfit) as [-> Hbody].
  destruct (Write_fresh (js ++ newline) w eq_refl) as (_ & Hst & Hh).
  cbn [writer logged trace]. split; [|done].
  by apply reply_ext.
Qed.

(** The run whose connection breaks under the JSON text. *)
Lemma run_write_failed store pool r n rows dps js :
  store pool_usage_query = QueryRows rows →
  Forall2 decodes rows dps →
  Marshal (foldl append nil_slice dps) = inl js →
  (n < String.length (js ++ newline))%nat →
  let e := serve store (getDataHandler pool) r (Some n) in
  reply_of (writer e) =
    {| reply_status := 200; reply_header := json_header;
       reply_body := string_take n (js ++ newline) |}
  ∧ logged e = ["Error encoding response: write: broken pipe"]
  ∧ trace e = EvHeaderSet "Access-Control-Allow-Origin" "*"
              :: EvQuery pool_usage_query
              :: EvHeaderSet "Content-Type" "application/json"
              :: EvWrite (js ++ newline)
              :: Error_trace "Failed to encode response" StatusInternalServerError
              ++ [EvLog "Error encoding response: write: broken pipe"; EvRowsClose].
Proof.
  intros Hq Hrows Hm Hn e. subst e. unfold serve.
  rewrite (run_encoded store pool r _ rows dps js Hq Hrows Hm). cbv zeta.
  set (w := json_typed (cors (new_response (Some n)))).
  destruct (Write_short (js ++ newline) w n eq_refl Hn) as (-> & Hbody & Hbudget).
  destruct (Write_fresh (js ++ newline) w eq_refl) as (Hwrote & Hst & Hh).
  cbn [writer logged trace]. split; [|done].
  destruct (Error_writer_sent "Failed to encode response" StatusInternalServerError
              _ Hwrote) as (_ & Hst' & Hh').
  apply reply_ext.
  - by rewrite Hst'.
  - by rewrite Hh'.
  - by rewrite Error_writer_broken.
Qed.


(** ** An empty result set *)

(** C1, as the claim has it, fails: served from an empty result set the
    handler answers 200, but the body is neither the text of an empty array
    nor that text and a newline. *)
Lemma C1_empty_array_counterexample :
  let e := serve (stable_store (QueryRows [])) (getDataHandler sample_pool)
             (sample_request "GET") None in
  ¬ (status (writer e) = 200
     ∧ (body (writer e) = "[]" ∨ body (writer e) = "[]" ++ newline)).
Proof. cbv zeta. vm_compute. intros (_ & [H|H]); discriminate H. Qed.

(** C1, amended: for a request served from an empty result set (the query
    returns zero rows) the handler responds with status 200 and
    Content-Type application/json, and the response body is the JSON value
    null followed by a newline: the slice the handler declares is never
    appended to, so it is still nil when it is encoded. *)
Theorem C1_empty_result_null store pool r budget :
  store pool_usage_query = QueryRows [] →
  fits ("null" ++ newline) budget →
  reply_of (writer (serve store (getDataHandler pool) r budget)) =
  {| reply_status := 200; reply_header := json_header;
     reply_body := "null" ++ newline |}.
Proof.
  intros Hq Hfit.
  apply (run_success store pool r budget [] [] "null" Hq); [constructor | reflexivity | exact Hfit].
Qed.

Lemma C1_empty_result_null_witness :
  reply_of (writer (serve (stable_store (QueryRows [])) (getDataHandler sample_pool)
                      (sample_request "GET") (Some 5%nat))) =
  {| reply_status := 200; reply_header := json_header;
     reply_body := "null" ++ newline |}.
Proof.
  apply (C1_empty_result_null (stable_store (QueryRows [])) sample_pool
           (sample_request "GET") (Some 5%nat)).
  - reflexivity.
  - simpl. lia.
Defined.

(** ** Order *)

Lemma decodes_timestamp row dp :
  decodes row dp → row_timestamp row = Some (Timestamp dp).
Proof.
  unfold decodes, Scan.
  destruct row as [|c0 [|c1 [|c2 [|c3 row]]]]; try discriminate.
  destruct (scan_int 0 c0); [|discriminate].
  destruct c1; simpl; try discriminate.
  destruct (scan_int 2 c2); [|discriminate].
  by intros [= <-].
Qed.

Lemma decodes_row_le a b dpa dpb :
  decodes a dpa → decodes b dpb → row_le a b → time_le (Timestamp dpa) (Timestamp dpb).
Proof.
  intros Ha Hb. unfold row_le.
  by rewrite (decodes_timestamp a dpa Ha), (decodes_timestamp b dpb Hb).
Qed.

(** Decoding row by row carries the order of the rows over to the records. *)
Lemma decoded_sorted rows dps :
  Forall2 decodes rows dps → Sorted row_le rows →
  Sorted time_le (map Timestamp dps).
Proof.
  induction 1 as [|row dp rows dps Hrow Hrows IH]; intros Hs; simpl.
  - constructor.
  - inversion Hs as [|? ? Hs' Hhd]; subst. constructor; [by apply IH|].
    destruct Hrows as [|row' dp' rows dps Hrow' _]; simpl; constructor.
    inversion Hhd; subst. eapply decodes_row_le; eauto.
Qed.

Lemma Marshal_elems_each dps jss :
  Marshal_elems dps = inl jss →
  Forall2 (λ dp js, Marshal_DataPoint dp = inl js) dps jss.
Proof.
  revert jss. induction dps as [|dp dps IH]; intros jss; simpl.
  - intros [= <-]. constructor.
  - destruct (Marshal_DataPoint dp) as [js|] eqn:Hdp; [|discriminate].
    destruct (Marshal_elems dps) as [jss'|]; [|discriminate].
    intros [= <-]. constructor; [done | by apply IH].
Qed.

(** C2: for every non-empty result set that the store returns in ascending
    order of timestamp, the handler appends the records in iteration order:
    the body is the JSON array of the objects of the decoded rows, one per
    row and in the order of the rows (so ties keep the order of the store),
    and the timestamps of the records ascend. *)
Theorem C2_ascending_timestamps store pool r budget rows dps jss :
  store pool_usage_query = QueryRows rows →
  rows ≠ [] →
  Sorted row_le rows →
  Forall2 decodes rows dps →
  Marshal_elems dps = inl jss →
  fits (("[" ++ Join jss "," ++ "]") ++ newline) budget →
  let e := serve store (getDataHandler pool) r budget in
  status (writer e) = 200
  ∧ body (writer e) = ("[" ++ Join jss "," ++ "]") ++ newline
  ∧ Forall2 (λ dp js, Marshal_DataPoint dp = inl js) dps jss
  ∧ Forall2 (λ row dp, row_timestamp row = Some (Timestamp dp)) rows dps
  ∧ Sorted time_le (map Timestamp dps).
Proof.
  intros Hq Hne Hsorted Hrows Hm Hfit e.
  assert (Hslice : foldl append nil_slice dps = slice_of dps).
  { rewrite foldl_append_nil. destruct Hrows; [done | reflexivity]. }
  assert (Hjs : Marshal (foldl append nil_slice dps) = inl ("[" ++ Join jss "," ++ "]")).
  { rewrite Hslice. simpl. by rewrite Hm. }
  destruct (run_success store pool r budget rows dps _ Hq Hrows Hjs Hfit) as (Hreply & _).
  fold e in Hreply. apply reply_inv in Hreply as (Hst & _ & Hbody).
  split; [done|]. split; [done|].
  split; [by apply Marshal_elems_each|]. split.
  - eapply Forall2_impl; [exact Hrows|]. apply decodes_timestamp.
  - by apply decoded_sorted with rows.
Qed.

Lemma C2_ascending_timestamps_witness :
  let e := serve (stable_store (QueryRows example_rows)) (getDataHandler sample_pool)
             (sample_request "GET") None in
  status (writer e) = 200
  ∧ body (writer e) = ("[" ++ Join example_objects "," ++ "]") ++ newline
  ∧ Forall2 (λ dp js, Marshal_DataPoint dp = inl js) example_points example_objects
  ∧ Forall2 (λ row dp, row_timestamp row = Some (Timestamp dp)) example_rows example_points
  ∧ Sorted time_le (map Timestamp example_points).
Proof.
  apply (C2_ascending_timestamps (stable_store (QueryRows example_rows)) sample_pool
           (sample_request "GET") None example_rows example_points example_objects).
  - reflexivity.
  - discriminate.
  - repeat constructor.
  - repeat constructor.
  - vm_compute. reflexivity.
  - exact I.
Defined.

(** ** Failures *)




(** C4, as the claim has it, fails: when a row does not decode the body is
    not the bare message; [http.Error] ends it with a newline. *)
Lemma C4_body_counterexample :
  let e := serve (stable_store (QueryRows (example_rows ++ [short_row])))
             (getDataHandler sample_pool) (sample_request "GET") None in
  ¬ (status (writer e) = 500 ∧ body (writer e) = "Failed to scan row").
Proof. cbv zeta. vm_compute. intros [_ H]. discriminate H. Qed.

(** A result set with a row that does not decode has a first such row. *)
Lemma first_undecodable (rows : list RawRow) :
  Exists (λ row, ∃ err, Scan row = inr err) rows →
  ∃ pre dps bad err rest,
    rows = (pre ++ bad :: rest)%list ∧ Forall2 decodes pre dps ∧ Scan bad = inr err.
Proof.
  intros Hex.
  destruct (rows_decode_cases rows) as [[dps Hrows]|H]; [|exact H].
  exfalso. induction Hrows as [|row dp rows dps Hrow _ IH].
  - inversion Hex.
  - inversion Hex as [? ? [err Herr]|]; subst; [|by apply IH].
    unfold decodes in Hrow. congruence.
Qed.

(** C4, amended: for every request in which decoding some row into a
    DataPoint fails, the handler responds with HTTP status 500 and the body
    "Failed to scan row" followed by a newline (on a connection that takes
    it).  It stops at the first row that does not decode: the error it logs
    is that row's, the rows after it are not processed, no part of the rows
    decoded before it is sent, and all it does afterwards is close the
    rows. *)
Theorem C4_row_decode_failure store pool r budget rows :
  store pool_usage_query = QueryRows rows →
  Exists (λ row, ∃ err, Scan row = inr err) rows →
  let e := serve store (getDataHandler pool) r budget in
  status (writer e) = 500
  ∧ sentHeader (writer e) = error_header
  ∧ (fits ("Failed to scan row" ++ newline) budget →
       body (writer e) = "Failed to scan row" ++ newline)
  ∧ ∃ pre dps bad err rest,
      rows = (pre ++ bad :: rest)%list
      ∧ Forall2 decodes pre dps
      ∧ Scan bad = inr err
      ∧ logged e = ["Error scanning row: " ++ err]
      ∧ trace e = [EvHeaderSet "Access-Control-Allow-Origin" "*";
                   EvQuery pool_usage_query;
                   EvHeaderDel "Content-Length";
                   EvHeaderSet "Content-Type" "text/plain; charset=utf-8";
                   EvHeaderSet "X-Content-Type-Options" "nosniff";
                   EvWriteHeader 500;
                   EvWrite ("Failed to scan row" ++ newline);
                   EvLog ("Error scanning row: " ++ err);
                   EvRowsClose].
Proof.
  intros Hq Hex e. subst e. unfold serve.
  destruct (first_undecodable rows Hex) as (pre & dps & bad & err & rest & -> & Hpre & Hbad).
  rewrite (run_row_failed store pool r _ pre dps bad err rest Hq Hpre Hbad).
  cbn [writer logged trace].
  destruct (Error_writer_fresh "Failed to scan row" StatusInternalServerError
              (cors (new_response budget)) eq_refl) as (_ & Hst & Hh).
  split; [exact Hst|]. split; [by rewrite Hh|]. split.
  - intros Hfit. by rewrite Error_writer_body.
  - exists pre, dps, bad, err, rest. done.
Qed.

Lemma C4_row_decode_failure_witness :
  let rows := (example_rows ++ short_row :: example_rows)%list in
  let e := serve (stable_store (QueryRows rows)) (getDataHandler sample_pool)
             (sample_request "GET") None in
  status (writer e) = 500
  ∧ sentHeader (writer e) = error_header
  ∧ (fits ("Failed to scan row" ++ newline) None →
       body (writer e) = "Failed to scan row" ++ newline)
  ∧ ∃ pre dps bad err rest,
      rows = (pre ++ bad :: rest)%list
      ∧ Forall2 decodes pre dps
      ∧ Scan bad = inr err
      ∧ logged e = ["Error scanning row: " ++ err]
      ∧ trace e = [EvHeaderSet "Access-Control-Allow-Origin" "*";
                   EvQuery pool_usage_query;
                   EvHeaderDel "Content-Length";
                   EvHeaderSet "Content-Type" "text/plain; charset=utf-8";
                   EvHeaderSet "X-Content-Type-Options" "nosniff";
                   EvWriteHeader 500;
                   EvWrite ("Failed to scan row" ++ newline);
                   EvLog ("Error scanning row: " ++ err);
                   EvRowsClose].
Proof.
  apply (C4_row_decode_failure
           (stable_store (QueryRows (example_rows ++ short_row :: example_rows)))
           sample_pool (sample_request "GET") None
           (example_rows ++ short_row :: example_rows)).
  - reflexivity.
  - simpl. do 2 apply Exists_cons_tl. apply Exists_cons_hd.
    eexists. reflexivity.
Defined.



(** When the records do not marshal, nothing has been written yet and the
    reply is that of [http.Error]: an encode failure of this kind reaches
    the client as a plain 500. *)
Lemma marshal_failure_reply store pool r budget rows dps err :
  store pool_usage_query = QueryRows rows →
  Forall2 decodes rows dps →
  Marshal (foldl append nil_slice dps) = inr err →
  fits ("Failed to encode response" ++ newline) budget →
  let e := serve store (getDataHandler pool) r budget in
  reply_of (writer e) =
    {| reply_status := 500; reply_header := error_header;
       reply_body := "Failed to encode response" ++ newline |}
  ∧ logged e = ["Error encoding response: " ++ err].
Proof.
  intros Hq Hrows Hm Hfit e. subst e. unfold serve.
  rewrite (run_marshal_failed store pool r _ rows dps err Hq Hrows Hm).
  cbn [writer logged trace]. split; [|done].
  by rewrite Error_reply.
Qed.

Example far_row_reply :
  reply_of (writer (serve (stable_store (QueryRows [far_row])) (getDataHandler sample_pool)
                      (sample_request "GET") None)) =
  {| reply_status := 500; reply_header := error_header;
     reply_body := "Failed to encode response" ++ newline |}.
Proof. vm_compute. reflexivity. Qed.

(** ** Headers *)



(** ** Start of the process *)

(** C7: if the variable DATABASE_URL is absent or empty, [getDatabasePool]
    returns the error saying that it is not set, having called neither
    [ParseConfig] nor [NewWithConfig], and [main] logs the error and exits
    with status 1: no route is registered and no listener is started. *)
Theorem C7_missing_connection_string env :
  environ env !! "DATABASE_URL" = None
  ∨ environ env !! "DATABASE_URL" = Some EmptyString →
  let init := run_process env getDatabasePool [] in
  let proc := start env in
  proc_result init = Some (inr "DATABASE_URL environment variable is not set")
  ∧ proc_trace init = [PGetenv "DATABASE_URL"]
  ∧ proc_status proc = Exited 1
  ∧ proc_trace proc =
      [PGetenv "DATABASE_URL";
       PFatalf "Error initializing database connection: DATABASE_URL environment variable is not set"]
  ∧ DefaultServeMux proc = [].
Proof.
  intros Hvar.
  assert (Hget : default EmptyString (environ env !! "DATABASE_URL") = EmptyString)
    by (destruct Hvar as [-> | ->]; reflexivity).
  unfold start, main, getDatabasePool.
  cbn [mbind mret Prog_bind Prog_ret bind call run_process answer].
  rewrite Hget. cbn. done.
Qed.

Lemma C7_missing_connection_string_witness :
  let env := sample_env ∅ in
  let init := run_process env getDatabasePool [] in
  let proc := start env in
  proc_result init = Some (inr "DATABASE_URL environment variable is not set")
  ∧ proc_trace init = [PGetenv "DATABASE_URL"]
  ∧ proc_status proc = Exited 1
  ∧ proc_trace proc =
      [PGetenv "DATABASE_URL";
       PFatalf "Error initializing database connection: DATABASE_URL environment variable is not set"]
  ∧ DefaultServeMux proc = [].
Proof.
  apply (C7_missing_connection_string (sample_env ∅)).
  left. reflexivity.
Defined.

(** ** The end-to-end example *)

(** C8, as the claim has it, fails: the body is not the JSON text alone;
    [Encode] ends it with a newline. *)
Lemma C8_body_counterexample :
  let e := serve (stable_store (QueryRows example_rows)) (getDataHandler sample_pool)
             (sample_request "GET") None in
  ¬ (status (writer e) = 200
     ∧ Header_Get (sentHeader (writer e)) "Content-Type" = "application/json"
     ∧ body (writer e) = example_json).
Proof. cbv zeta. vm_compute. intros (_ & _ & H). discriminate H. Qed.

(** C8, amended: for the table containing exactly the rows
    (1, 2024-01-01T00:00:00Z, 42) and (2, 2024-01-01T01:00:00Z, 87), a GET
    /pool-data request returns status 200, Content-Type application/json,
    and the body
    [{"id":1,"timestamp":"2024-01-01T00:00:00Z","percentage":42},{"id":2,"timestamp":"2024-01-01T01:00:00Z","percentage":87}]
    followed by a newline. *)
Theorem C8_end_to_end store pool r budget :
  store pool_usage_query = QueryRows example_rows →
  fits (example_json ++ newline) budget →
  let e := serve store (getDataHandler pool) r budget in
  status (writer e) = 200
  ∧ Header_Get (sentHeader (writer e)) "Content-Type" = "application/json"
  ∧ body (writer e) = example_json ++ newline.
Proof.
  intros Hq Hfit e.
  destruct (run_success store pool r budget example_rows example_points example_json Hq)
    as (Hreply & _); [repeat constructor | vm_compute; reflexivity | exact Hfit |].
  fold e in Hreply. apply reply_inv in Hreply as (-> & -> & ->).
  split; [done|]. split; [|done]. vm_compute. reflexivity.
Qed.

Lemma C8_end_to_end_witness :
  let e := serve (stable_store (QueryRows example_rows)) (getDataHandler sample_pool)
             (sample_request "GET") None in
  status (writer e) = 200
  ∧ Header_Get (sentHeader (writer e)) "Content-Type" = "application/json"
  ∧ body (writer e) = example_json ++ newline.
Proof.
  apply (C8_end_to_end (stable_store (QueryRows example_rows)) sample_pool
           (sample_request "GET") None).
  - reflexivity.
  - exact I.
Defined.

(** ** Requests in flight together *)

Lemma steps_finished store n t : finished t = true → steps store n t = t.
Proof.
  intros Hfin. induction n as [|n IH]; [reflexivity|]. simpl.
  unfold step, finished in *. destruct (code t); [exact IH | discriminate].
Qed.

Lemma steps_add store n m t : steps store (n + m) t = steps store m (steps store n t).
Proof. revert t. induction n as [|n IH]; intros t; simpl; [reflexivity | apply IH]. Qed.

(** A thread left alone makes the calls of its run and ends with the
    response of its run. *)
Lemma steps_run store (p : Prog HEff unit) (w : response) :
  steps store (length (trace (run store p w))) {| code := p; tw := w |} =
  {| code := Ret (returned (run store p w)); tw := writer (run store p w) |}.
Proof.
  revert w. induction p as [a|X e k IH]; intros w; [reflexivity|].
  cbn [run before trace length steps step code tw fst returned writer].
  apply IH.
Qed.

Lemma steps_enough store (p : Prog HEff unit) (w : response) n :
  (length (trace (run store p w)) <= n)%nat →
  steps store n {| code := p; tw := w |} =
  {| code := Ret (returned (run store p w)); tw := writer (run store p w) |}.
Proof.
  intros Hn.
  replace n with (length (trace (run store p w)) + (n - length (trace (run store p w))))%nat
    by lia.
  rewrite steps_add, steps_run. by apply steps_finished.
Qed.

Lemma turns_cons i j sched :
  turns i (j :: sched) = ((if decide (j = i) then 1 else 0) + turns i sched)%nat.
Proof. unfold turns. rewrite filter_cons. by destruct (decide (j = i)). Qed.

(** Whatever the schedule, a thread is where its own turns take it: the
    threads share the store, which they only read, and the logger, which
    they only write to. *)
Lemma schedule_local store sched srv i :
  threads (run_schedule store sched srv) !! i =
  steps store (turns i sched) <$> threads srv !! i.
Proof.
  revert srv. induction sched as [|j sched IH]; intros srv.
  - simpl. by destruct (threads srv !! i).
  - unfold run_schedule in *. cbn [foldl]. rewrite IH, turns_cons.
    unfold sched_step. destruct (threads srv !! j) as [t|] eqn:Hj.
    + cbn [threads]. destruct (decide (j = i)) as [->|Hne].
      * rewrite list_lookup_insert_eq by (by eapply lookup_lt_Some).
        rewrite Hj. reflexivity.
      * by rewrite list_lookup_insert_ne.
    + destruct (decide (j = i)) as [->|Hne]; [|done].
      by rewrite Hj.
Qed.

(** C9: for a fixed result set that decodes and marshals, every request
    served by the handler ends with one and the same complete reply (status
    200, the JSON text of all the records and a newline), whatever the
    request is, however many requests are in flight with it and however
    their calls are interleaved: a request that has had its five turns has
    finished with that reply. *)
Theorem C9_deterministic store pool rows dps js :
  store pool_usage_query = QueryRows rows →
  Forall2 decodes rows dps →
  Marshal (foldl append nil_slice dps) = inl js →
  ∀ (reqs : list Request) (sched : list nat) (i : nat) (t : Thread),
    threads (run_schedule store sched
               {| threads := spawn (getDataHandler pool) None <$> reqs;
                  stderr := [] |}) !! i = Some t →
    (5 <= turns i sched)%nat →
    finished t = true
    ∧ reply_of (tw t) =
        {| reply_status := 200; reply_header := json_header;
           reply_body := js ++ newline |}.
Proof.
  intros Hq Hrows Hm reqs sched i t Ht Hturns.
  rewrite schedule_local in Ht. cbn [threads] in Ht.
  rewrite list_lookup_fmap in Ht.
  destruct (reqs !! i) as [r|]; [|discriminate]. cbn in Ht.
  destruct (run_success store pool r None rows dps js Hq Hrows Hm I) as (Hreply & _ & Htr).
  unfold serve in Hreply, Htr. unfold spawn in Ht.
  rewrite steps_enough in Ht by (rewrite Htr; exact Hturns).
  injection Ht as <-. split; [reflexivity | exact Hreply].
Qed.

(** ** Methods *)






Lemma C9_deterministic_witness :
  ∃ t, threads (run_schedule (stable_store (QueryRows example_rows))
                  [0; 1; 2; 2; 1; 0; 0; 1; 2; 1; 1; 0; 2; 2; 0; 1]%nat
                  {| threads := spawn (getDataHandler sample_pool) None <$>
                                  [sample_request "GET"; sample_request "POST";
                                   sample_request "GET"];
                     stderr := [] |}) !! 1%nat = Some t
       ∧ finished t = true
       ∧ reply_of (tw t) =
           {| reply_status := 200; reply_header := json_header;
              reply_body := example_json ++ newline |}.
Proof.
  destruct (threads (run_schedule (stable_store (QueryRows example_rows))
                       [0; 1; 2; 2; 1; 0; 0; 1; 2; 1; 1; 0; 2; 2; 0; 1]%nat
                       {| threads := spawn (getDataHandler sample_pool) None <$>
                                       [sample_request "GET"; sample_request "POST";
                                        sample_request "GET"];
                          stderr := [] |}) !! 1%nat) as [t|] eqn:Ht.
  - exists t. split; [reflexivity|].
    apply (C9_deterministic (stable_store (QueryRows example_rows)) sample_pool
             example_rows example_points example_json eq_refl)
      with (reqs := [sample_request "GET"; sample_request "POST"; sample_request "GET"])
           (sched := [0; 1; 2; 2; 1; 0; 0; 1; 2; 1; 1; 0; 2; 2; 0; 1]%nat) (i := 1%nat).
    + repeat constructor.
    + vm_compute. reflexivity.
    + exact Ht.
    + vm_compute. lia.
  - vm_compute in Ht. discriminate Ht.
Defined.

(** * Further properties of [main.go] *)

(** ** Start of the process, step by step *)

Ltac proc_simpl :=
  cbn [mbind mret Prog_bind Prog_ret bind call log_Fatalf run_process answer
       mux_after plog_of pevent_of app DefaultServeMux proc_log proc_trace
       proc_status proc_result].

Lemma getenv_set env v :
  environ env !! "DATABASE_URL" = Some v → v ≠ EmptyString →
  default EmptyString (environ env !! "DATABASE_URL") = v
  ∧ String.eqb v EmptyString = false.
Proof. intros -> Hv. split; [reflexivity | by apply String.eqb_neq]. Qed.

(** X1: when DATABASE_URL holds a non-empty value that [ParseConfig]
    refuses, [getDatabasePool] returns "unable to parse DATABASE_URL: "
    followed by the parse error without calling [NewWithConfig]; [main] logs
    that error behind "Error initializing database connection: " and exits
    with status 1, with no route registered and no listener started.  The
    value is handed to [ParseConfig] as it is. *)
Theorem X1_unparsable_connection_string env v err :
  environ env !! "DATABASE_URL" = Some v →
  v ≠ EmptyString →
  parse_config env v = inr err →
  let init := run_process env getDatabasePool [] in
  let proc := start env in
  proc_result init = Some (inr ("unable to parse DATABASE_URL: " ++ err))
  ∧ proc_trace init = [PGetenv "DATABASE_URL"; PParseConfig v]
  ∧ proc_status proc = Exited 1
  ∧ proc_log proc =
      ["Error initializing database connection: unable to parse DATABASE_URL: " ++ err]
  ∧ proc_trace proc =
      [PGetenv "DATABASE_URL"; PParseConfig v;
       PFatalf ("Error initializing database connection: unable to parse DATABASE_URL: "
                ++ err)]
  ∧ DefaultServeMux proc = [].
Proof.
  intros Hvar Hv Hparse.
  destruct (getenv_set env v Hvar Hv) as [Hget Hne].
  unfold start, main, getDatabasePool. proc_simpl.
  rewrite Hget, Hne. proc_simpl. rewrite Hparse. proc_simpl. done.
Qed.

Lemma X1_unparsable_connection_string_witness :
  let err := "cannot parse `db.example.org`: failed to parse as keyword/value (invalid keyword/value)" in
  let init := run_process unparsable_env getDatabasePool [] in
  let proc := start unparsable_env in
  proc_result init = Some (inr ("unable to parse DATABASE_URL: " ++ err))
  ∧ proc_trace init = [PGetenv "DATABASE_URL"; PParseConfig "db.example.org"]
  ∧ proc_status proc = Exited 1
  ∧ proc_log proc =
      ["Error initializing database connection: unable to parse DATABASE_URL: " ++ err]
  ∧ proc_trace proc =
      [PGetenv "DATABASE_URL"; PParseConfig "db.example.org";
       PFatalf ("Error initializing database connection: unable to parse DATABASE_URL: "
                ++ err)]
  ∧ DefaultServeMux proc = [].
Proof.
  apply (X1_unparsable_connection_string unparsable_env "db.example.org").
  - reflexivity.
  - discriminate.
  - reflexivity.
Defined.

(** X2: when the connection string parses but [NewWithConfig] fails,
    [getDatabasePool] returns "unable to create connection pool: " followed
    by that error, and [main] logs it and exits with status 1 before any
    route is registered or any listener started. *)
Theorem X2_pool_not_created env v config err :
  environ env !! "DATABASE_URL" = Some v →
  v ≠ EmptyString →
  parse_config env v = inl config →
  new_pool env config = inr err →
  let init := run_process env getDatabasePool [] in
  let proc := start env in
  proc_result init = Some (inr ("unable to create connection pool: " ++ err))
  ∧ proc_trace init = [PGetenv "DATABASE_URL"; PParseConfig v; PNewWithConfig config]
  ∧ proc_status proc = Exited 1
  ∧ proc_log proc =
      ["Error initializing database connection: unable to create connection pool: "
       ++ err]
  ∧ proc_trace proc =
      [PGetenv "DATABASE_URL"; PParseConfig v; PNewWithConfig config;
       PFatalf ("Error initializing database connection: unable to create connection pool: "
                ++ err)]
  ∧ DefaultServeMux proc = [].
Proof.
  intros Hvar Hv Hparse Hpool.
  destruct (getenv_set env v Hvar Hv) as [Hget Hne].
  unfold start, main, getDatabasePool. proc_simpl.
  rewrite Hget, Hne. proc_simpl. rewrite Hparse. proc_simpl.
  rewrite Hpool. proc_simpl. done.
Qed.

Lemma X2_pool_not_created_witness :
  let init := run_process no_pool_env getDatabasePool [] in
  let proc := start no_pool_env in
  proc_result init = Some (inr ("unable to create connection pool: " ++ "cannot allocate"))
  ∧ proc_trace init =
      [PGetenv "DATABASE_URL"; PParseConfig "postgres://pool:pool@db:5432/pool";
       PNewWithConfig {| ConnString := "postgres://pool:pool@db:5432/pool" |}]
  ∧ proc_status proc = Exited 1
  ∧ proc_log proc =
      ["Error initializing database connection: unable to create connection pool: "
       ++ "cannot allocate"]
  ∧ proc_trace proc =
      [PGetenv "DATABASE_URL"; PParseConfig "postgres://pool:pool@db:5432/pool";
       PNewWithConfig {| ConnString := "postgres://pool:pool@db:5432/pool" |};
       PFatalf ("Error initializing database connection: unable to create connection pool: "
                ++ "cannot allocate")]
  ∧ DefaultServeMux proc = [].
Proof.
  apply (X2_pool_not_created no_pool_env "postgres://pool:pool@db:5432/pool"
           {| ConnString := "postgres://pool:pool@db:5432/pool" |} "cannot allocate").
  - reflexivity.
  - discriminate.
  - reflexivity.
  - reflexivity.
Defined.

(** X3: when the variable is set, the connection string parses, the pool is
    built and the listener comes up, [getDatabasePool] returns the pool that
    [NewWithConfig] built from what [ParseConfig] made of the variable, and
    [main] registers [getDataHandler] of that pool under "/pool-data" and
    nothing else, logs "Starting server on port :8080..." and then serves on
    ":8080": the route is registered before the listener starts. *)
Theorem X3_startup env v config pool :
  environ env !! "DATABASE_URL" = Some v →
  v ≠ EmptyString →
  parse_config env v = inl config →
  new_pool env config = inl pool →
  listen env ":8080" = None →
  let init := run_process env getDatabasePool [] in
  let proc := start env in
  proc_result init = Some (inl pool)
  ∧ proc_status proc = Serving ":8080"
  ∧ DefaultServeMux proc = [("/pool-data", getDataHandler pool)]
  ∧ proc_log proc = ["Starting server on port :8080..."]
  ∧ proc_trace proc =
      [PGetenv "DATABASE_URL"; PParseConfig v; PNewWithConfig config;
       PHandleFunc "/pool-data"; PPrintf "Starting server on port :8080...";
       PListenAndServe ":8080"].
Proof.
  intros Hvar Hv Hparse Hpool Hlisten.
  destruct (getenv_set env v Hvar Hv) as [Hget Hne].
  unfold start, main, getDatabasePool. proc_simpl.
  rewrite Hget, Hne. proc_simpl. rewrite Hparse. proc_simpl.
  rewrite Hpool. proc_simpl. rewrite Hlisten. proc_simpl. done.
Qed.

Lemma X3_startup_witness :
  let env := sample_env {["DATABASE_URL" := "postgres://pool:pool@db:5432/pool"]} in
  let init := run_process env getDatabasePool [] in
  let proc := start env in
  proc_result init = Some (inl sample_pool)
  ∧ proc_status proc = Serving ":8080"
  ∧ DefaultServeMux proc = [("/pool-data", getDataHandler sample_pool)]
  ∧ proc_log proc = ["Starting server on port :8080..."]
  ∧ proc_trace proc =
      [PGetenv "DATABASE_URL"; PParseConfig "postgres://pool:pool@db:5432/pool";
       PNewWithConfig {| ConnString := "postgres://pool:pool@db:5432/pool" |};
       PHandleFunc "/pool-data"; PPrintf "Starting server on port :8080...";
       PListenAndServe ":8080"].
Proof.
  apply (X3_startup (sample_env {["DATABASE_URL" := "postgres://pool:pool@db:5432/pool"]})
           "postgres://pool:pool@db:5432/pool"
           {| ConnString := "postgres://pool:pool@db:5432/pool" |} sample_pool).
  - reflexivity.
  - discriminate.
  - reflexivity.
  - reflexivity.
  - reflexivity.
Defined.

(** X4: when the listener does not come up, [main] has built the pool and
    registered the route by then; it logs "Failed to start server: "
    followed by the error after the starting line and exits with status 1.
    The pool it built is not closed. *)
Theorem X4_listener_fails env v config pool err :
  environ env !! "DATABASE_URL" = Some v →
  v ≠ EmptyString →
  parse_config env v = inl config →
  new_pool env config = inl pool →
  listen env ":8080" = Some err →
  let proc := start env in
  proc_status proc = Exited 1
  ∧ proc_log proc =
      ["Starting server on port :8080..."; "Failed to start server: " ++ err]
  ∧ proc_trace proc =
      [PGetenv "DATABASE_URL"; PParseConfig v; PNewWithConfig config;
       PHandleFunc "/pool-data"; PPrintf "Starting server on port :8080...";
       PListenAndServe ":8080"; PFatalf ("Failed to start server: " ++ err)]
  ∧ DefaultServeMux proc = [("/pool-data", getDataHandler pool)].
Proof.
  intros Hvar Hv Hparse Hpool Hlisten.
  destruct (getenv_set env v Hvar Hv) as [Hget Hne].
  unfold start, main, getDatabasePool. proc_simpl.
  rewrite Hget, Hne. proc_simpl. rewrite Hparse. proc_simpl.
  rewrite Hpool. proc_simpl. rewrite Hlisten. proc_simpl. done.
Qed.

Lemma X4_listener_fails_witness :
  let proc := start busy_port_env in
  proc_status proc = Exited 1
  ∧ proc_log proc =
      ["Starting server on port :8080...";
       "Failed to start server: " ++ "listen tcp :8080: bind: address already in use"]
  ∧ proc_trace proc =
      [PGetenv "DATABASE_URL"; PParseConfig "postgres://pool:pool@db:5432/pool";
       PNewWithConfig {| ConnString := "postgres://pool:pool@db:5432/pool" |};
       PHandleFunc "/pool-data"; PPrintf "Starting server on port :8080...";
       PListenAndServe ":8080";
       PFatalf ("Failed to start server: "
                ++ "listen tcp :8080: bind: address already in use")]
  ∧ DefaultServeMux proc = [("/pool-data", getDataHandler sample_pool)].
Proof.
  apply (X4_listener_fails busy_port_env "postgres://pool:pool@db:5432/pool"
           {| ConnString := "postgres://pool:pool@db:5432/pool" |} sample_pool
           "listen tcp :8080: bind: address already in use").
  - reflexivity.
  - discriminate.
  - reflexivity.
  - reflexivity.
  - reflexivity.
Defined.

Ltac not_in_trace :=
  let Hin := fresh "Hin" in
  intros ? Hin;
  repeat (apply elem_of_cons in Hin as [Hin|Hin]; [discriminate Hin|]);
  by apply elem_of_nil in Hin.

(** X5: whatever the environment, [main] never returns: it ends in
    [log.Fatalf] with exit status 1 or it serves on ":8080".  So the
    deferred [pool.Close()] never runs, and the only variable ever read is
    DATABASE_URL, once and first. *)
Theorem X5_pool_never_closed env :
  let proc := start env in
  (proc_status proc = Exited 1 ∨ proc_status proc = Serving ":8080")
  ∧ proc_result proc = None
  ∧ (∀ pool, PPoolClose pool ∉ proc_trace proc)
  ∧ ∃ rest, proc_trace proc = PGetenv "DATABASE_URL" :: rest
            ∧ ∀ key, PGetenv key ∉ rest.
Proof.
  unfold start, main, getDatabasePool. proc_simpl.
  destruct (String.eqb _ EmptyString); proc_simpl;
    [|destruct (parse_config env _) as [config|perr]; proc_simpl;
      [destruct (new_pool env config) as [pool|cerr]; proc_simpl;
       [destruct (listen env ":8080") as [lerr|]; proc_simpl|]|]];
    (split; [by (left + right)|]); (split; [done|]);
    (split; [not_in_trace|]); (eexists; split; [reflexivity | not_in_trace]).
Qed.

(** ** The handler, way by way *)



Lemma undecodable_exists (pre : list RawRow) bad err rest :
  Scan bad = inr err →
  Exists (λ row, ∃ err, Scan row = inr err) (pre ++ bad :: rest).
Proof. intros Hbad. apply Exists_app. right. left. eauto. Qed.

(** The calls of the five ways through the handler. *)
Lemma handler_paths store pool r budget :
  let e := serve store (getDataHandler pool) r budget in
  (∃ err,
      store pool_usage_query = QueryFailed err
      ∧ status (writer e) = 500 ∧ sentHeader (writer e) = error_header
      ∧ logged e = ["Error querying database: " ++ err]
      ∧ trace e = [EvHeaderSet "Access-Control-Allow-Origin" "*";
                   EvQuery pool_usage_query;
                   EvHeaderDel "Content-Length";
                   EvHeaderSet "Content-Type" "text/plain; charset=utf-8";
                   EvHeaderSet "X-Content-Type-Options" "nosniff";
                   EvWriteHeader 500;
                   EvWrite ("Failed to query the database" ++ newline);
                   EvLog ("Error querying database: " ++ err)])
  ∨ (∃ rows err,
      store pool_usage_query = QueryRows rows
      ∧ Exists (λ row, ∃ err, Scan row = inr err) rows
      ∧ status (writer e) = 500 ∧ sentHeader (writer e) = error_header
      ∧ logged e = ["Error scanning row: " ++ err]
      ∧ trace e = [EvHeaderSet "Access-Control-Allow-Origin" "*";
                   EvQuery pool_usage_query;
                   EvHeaderDel "Content-Length";
                   EvHeaderSet "Content-Type" "text/plain; charset=utf-8";
                   EvHeaderSet "X-Content-Type-Options" "nosniff";
                   EvWriteHeader 500;
                   EvWrite ("Failed to scan row" ++ newline);
                   EvLog ("Error scanning row: " ++ err);
                   EvRowsClose])
  ∨ (∃ rows dps err,
      store pool_usage_query = QueryRows rows
      ∧ Forall2 decodes rows dps
      ∧ Marshal (foldl append nil_slice dps) = inr err
      ∧ status (writer e) = 500 ∧ sentHeader (writer e) = error_header
      ∧ logged e = ["Error encoding response: " ++ err]
      ∧ trace e = [EvHeaderSet "Access-Control-Allow-Origin" "*";
                   EvQuery pool_usage_query;
                   EvHeaderSet "Content-Type" "application/json";
                   EvHeaderDel "Content-Length";
                   EvHeaderSet "Content-Type" "text/plain; charset=utf-8";
                   EvHeaderSet "X-Content-Type-Options" "nosniff";
                   EvWriteHeader 500;
                   EvWrite ("Failed to encode response" ++ newline);
                   EvLog ("Error encoding response: " ++ err);
                   EvRowsClose])
  ∨ (∃ rows dps js n,
      store pool_usage_query = QueryRows rows
      ∧ Forall2 decodes rows dps
      ∧ Marshal (foldl append nil_slice dps) = inl js
      ∧ budget = Some n ∧ (n < String.length (js ++ newline))%nat
      ∧ status (writer e) = 200 ∧ sentHeader (writer e) = json_header
      ∧ logged e = ["Error encoding response: write: broken pipe"]
      ∧ trace e = [EvHeaderSet "Access-Control-Allow-Origin" "*";
                   EvQuery pool_usage_query;
                   EvHeaderSet "Content-Type" "application/json";
                   EvWrite (js ++ newline);
                   EvHeaderDel "Content-Length";
                   EvHeaderSet "Content-Type" "text/plain; charset=utf-8";
                   EvHeaderSet "X-Content-Type-Options" "nosniff";
                   EvWriteHeader 500;
                   EvWrite ("Failed to encode response" ++ newline);
                   EvLog "Error encoding response: write: broken pipe";
                   EvRowsClose])
  ∨ (∃ rows dps js,
      store pool_usage_query = QueryRows rows
      ∧ Forall2 decodes rows dps
      ∧ Marshal (foldl append nil_slice dps) = inl js
      ∧ fits (js ++ newline) budget
      ∧ status (writer e) = 200 ∧ sentHeader (writer e) = json_header
      ∧ logged e = []
      ∧ trace e = [EvHeaderSet "Access-Control-Allow-Origin" "*";
                   EvQuery pool_usage_query;
                   EvHeaderSet "Content-Type" "application/json";
                   EvWrite (js ++ newline);
                   EvRowsClose]).
Proof.
  intros e. subst e.
  destruct (store pool_usage_query) as [err|rows] eqn:Hq.
  - left. exists err. split; [done|]. unfold serve.
    rewrite (run_query_failed store pool r _ err Hq). cbn [writer logged trace].
    destruct (Error_writer_fresh "Failed to query the database" StatusInternalServerError
                (cors (new_response budget)) eq_refl) as (_ & -> & ->). done.
  - right.
    destruct (rows_decode_cases rows)
      as [[dps Hrows]|(pre & dps & bad & err & rest & -> & Hpre & Hbad)].
    + right. destruct (Marshal (foldl append nil_slice dps)) as [js|err] eqn:Hm.
      * right.
        assert (Hcmp : fits (js ++ newline) budget
                       ∨ ∃ n, budget = Some n ∧ (n < String.length (js ++ newline))%nat).
        { destruct budget as [n|]; [|by left]. simpl.
          destruct (Nat.le_gt_cases (String.length (js ++ newline)) n); eauto. }
        destruct Hcmp as [Hfit|(n & -> & Hn)].
        -- right. exists rows, dps, js.
           destruct (run_success store pool r budget rows dps js Hq Hrows Hm Hfit)
             as (Hreply & Hlog & Htr).
           apply reply_inv in Hreply as (Hst & Hh & _). done.
        -- left. exists rows, dps, js, n.
           destruct (run_write_failed store pool r n rows dps js Hq Hrows Hm Hn)
             as (Hreply & Hlog & Htr).
           apply reply_inv in Hreply as (Hst & Hh & _). done.
      * left. exists rows, dps, err. unfold serve.
        rewrite (run_marshal_failed store pool r _ rows dps err Hq Hrows Hm).
        cbn [writer logged trace].
        destruct (Error_writer_fresh "Failed to encode response" StatusInternalServerError
                    (json_typed (cors (new_response budget))) eq_refl) as (_ & -> & ->).
        done.
    + left. exists (pre ++ bad :: rest)%list, err. unfold serve.
      rewrite (run_row_failed store pool r _ pre dps bad err rest Hq Hpre Hbad).
      cbn [writer logged trace].
      destruct (Error_writer_fresh "Failed to scan row" StatusInternalServerError
                  (cors (new_response budget)) eq_refl) as (_ & -> & ->).
      split; [done|]. split; [by eapply undecodable_exists|]. done.
Qed.

(** ** One query, one close *)

(** X6: every run of the handler, whatever the request and however it ends,
    asks the store exactly one thing: the fixed SELECT over pool_usage, as
    its second call, right after setting the CORS header. *)
Theorem X6_one_fixed_query store pool r budget :
  let e := serve store (getDataHandler pool) r budget in
  List.filter is_query (trace e) = [EvQuery pool_usage_query]
  ∧ ∃ rest, trace e = EvHeaderSet "Access-Control-Allow-Origin" "*"
                      :: EvQuery pool_usage_query :: rest.
Proof.
  intros e.
  destruct (handler_paths store pool r budget)
    as [(err & _ & _ & _ & _ & Htr)
       |[(rows & err & _ & _ & _ & _ & _ & Htr)
       |[(rows & dps & err & _ & _ & _ & _ & _ & _ & Htr)
       |[(rows & dps & js & n & _ & _ & _ & _ & _ & _ & _ & _ & Htr)
       |(rows & dps & js & _ & _ & _ & _ & _ & _ & _ & Htr)]]]];
    fold e in Htr; rewrite Htr; (split; [reflexivity | eauto]).
Qed.

(** X7: the rows of a query that succeeded are closed exactly once, as the
    last call of the handler, on every way out (a row that does not decode,
    an encode failure, success); when the query itself fails there are no
    rows and the handler closes none. *)
Theorem X7_rows_closed_once store pool r budget :
  let e := serve store (getDataHandler pool) r budget in
  (∀ rows, store pool_usage_query = QueryRows rows →
     List.filter is_rows_close (trace e) = [EvRowsClose]
     ∧ last (trace e) = Some EvRowsClose)
  ∧ (∀ err, store pool_usage_query = QueryFailed err →
       List.filter is_rows_close (trace e) = []).
Proof.
  intros e.
  destruct (handler_paths store pool r budget)
    as [(err & Hq & _ & _ & _ & Htr)
       |[(rows & err & Hq & _ & _ & _ & _ & Htr)
       |[(rows & dps & err & Hq & _ & _ & _ & _ & _ & Htr)
       |[(rows & dps & js & n & Hq & _ & _ & _ & _ & _ & _ & _ & Htr)
       |(rows & dps & js & Hq & _ & _ & _ & _ & _ & _ & Htr)]]]];
    fold e in Htr; rewrite Htr, Hq; split; intros ? [=]; done.
Qed.

(** ** Status, headers and log of a reply *)




(** ** Records that do not marshal *)

Lemma year_refused (t : Time) :
  time_year t < 0 ∨ 9999 < time_year t → ∃ err, Time_MarshalJSON t = inr err.
Proof.
  intros Hy. unfold Time_MarshalJSON.
  destruct (Z.leb_spec 0 (time_year t)), (Z.leb_spec (time_year t) 9999);
    simpl; eauto; lia.
Qed.

Lemma Marshal_elems_refused dps :
  Exists (λ dp, ∃ err, Time_MarshalJSON (Timestamp dp) = inr err) dps →
  ∃ err, Marshal_elems dps =
         inr ("json: error calling MarshalJSON for type time.Time: " ++ err).
Proof.
  induction dps as [|dp dps IH]; intros Hex; [inversion Hex|].
  simpl. unfold Marshal_DataPoint.
  destruct (Time_MarshalJSON (Timestamp dp)) as [ts|err] eqn:Hts; [|eauto].
  inversion Hex as [? ? [err Herr]|? ? Hrest]; subst; [congruence|].
  destruct (IH Hrest) as [err ->]. eauto.
Qed.

(** X11: when every row decodes but some record has a timestamp whose year
    lies outside 0..9999, the records do not marshal, and since [Encode]
    marshals before it writes, no byte of JSON goes out: the client gets a
    clean 500 with the text/plain body "Failed to encode response" and a
    newline, and the marshalling error is logged. *)
Theorem X11_unmarshalable_timestamp store pool r budget rows dps :
  store pool_usage_query = QueryRows rows →
  Forall2 decodes rows dps →
  Exists (λ dp, time_year (Timestamp dp) < 0 ∨ 9999 < time_year (Timestamp dp)) dps →
  let e := serve store (getDataHandler pool) r budget in
  status (writer e) = 500
  ∧ sentHeader (writer e) = error_header
  ∧ (fits ("Failed to encode response" ++ newline) budget →
       body (writer e) = "Failed to encode response" ++ newline)
  ∧ List.filter is_write (trace e) = [EvWrite ("Failed to encode response" ++ newline)]
  ∧ ∃ err, logged e =
           ["Error encoding response: json: error calling MarshalJSON for type time.Time: "
            ++ err].
Proof.
  intros Hq Hrows Hyear e. subst e.
  assert (Hex : Exists (λ dp, ∃ err, Time_MarshalJSON (Timestamp dp) = inr err) dps).
  { eapply Exists_impl; [exact Hyear|]. intros dp. apply year_refused. }
  destruct (Marshal_elems_refused dps Hex) as [err Herr].
  assert (Hm : Marshal (foldl append nil_slice dps) =
               inr ("json: error calling MarshalJSON for type time.Time: " ++ err)).
  { rewrite foldl_append_nil. destruct dps; [inversion Hex|]. simpl in *. by rewrite Herr. }
  unfold serve. rewrite (run_marshal_failed store pool r _ rows dps _ Hq Hrows Hm).
  cbn [writer logged trace].
  destruct (Error_writer_fresh "Failed to encode response" StatusInternalServerError
              (json_typed (cors (new_response budget))) eq_refl) as (_ & Hst & Hh).
  split; [exact Hst|]. split; [by rewrite Hh|]. split; [|split; [reflexivity | eauto]].
  intros Hfit. by rewrite Error_writer_body.
Qed.

Lemma X11_unmarshalable_timestamp_witness :
  let e := serve (stable_store (QueryRows [far_row])) (getDataHandler sample_pool)
             (sample_request "GET") None in
  status (writer e) = 500
  ∧ sentHeader (writer e) = error_header
  ∧ (fits ("Failed to encode response" ++ newline) None →
       body (writer e) = "Failed to encode response" ++ newline)
  ∧ List.filter is_write (trace e) = [EvWrite ("Failed to encode response" ++ newline)]
  ∧ ∃ err, logged e =
           ["Error encoding response: json: error calling MarshalJSON for type time.Time: "
            ++ err].
Proof.
  apply (X11_unmarshalable_timestamp (stable_store (QueryRows [far_row])) sample_pool
           (sample_request "GET") None [far_row]
           [{| ID := 3; Timestamp := Date 10000 1 1 0 0 0 0; Percentage := 5 |}]).
  - reflexivity.
  - repeat constructor.
  - apply Exists_cons_hd. right. vm_compute. reflexivity.
Defined.

(** ** Other paths *)




(** ** Requests in flight together, whatever becomes of them *)




(** ** The shared logger *)







(** ** When the process serves *)

(** X15: the process comes to serve on ":8080" exactly when DATABASE_URL is
    set and not empty, [ParseConfig] accepts its value, [NewWithConfig]
    builds a pool from the result and the listener comes up; in every other
    case it has exited with status 1. *)
Theorem X15_serving_iff env :
  (proc_status (start env) = Serving ":8080" ↔
   ∃ v config pool,
     environ env !! "DATABASE_URL" = Some v ∧ v ≠ EmptyString
     ∧ parse_config env v = inl config
     ∧ new_pool env config = inl pool
     ∧ listen env ":8080" = None)
  ∧ (proc_status (start env) ≠ Serving ":8080" → proc_status (start env) = Exited 1).
Proof.
  unfold start, main, getDatabasePool. proc_simpl.
  destruct (environ env !! "DATABASE_URL") as [v|] eqn:Hvar; cbn [default from_option id].
  2:{ cbn [String.eqb]. proc_simpl. split; [|done].
      split; [discriminate|]. by intros (v & ? & ? & [=] & _). }
  destruct (String.eqb_spec v EmptyString) as [->|Hv]; proc_simpl.
  { split; [|done]. split; [discriminate|]. by intros (v & ? & ? & [= <-] & Hne & _). }
  destruct (parse_config env v) as [config|perr] eqn:Hparse; proc_simpl.
  2:{ split; [|done]. split; [discriminate|].
      intros (v' & ? & ? & [= <-] & _ & Hp & _). congruence. }
  destruct (new_pool env config) as [pool|cerr] eqn:Hpool; proc_simpl.
  2:{ split; [|done]. split; [discriminate|].
      intros (v' & config' & ? & [= <-] & _ & Hp & Hc & _).
      rewrite Hparse in Hp. injection Hp as <-. congruence. }
  destruct (listen env ":8080") as [lerr|] eqn:Hlisten; proc_simpl.
  - split; [|done]. split; [discriminate|].
    intros (? & ? & ? & _ & _ & _ & _ & [=]).
  - split; [|done]. split; [|done]. intros _. eauto 10.
Qed.
